(** * variant_topic_tools: the message type value object and its loader

    A shallow embedding of [variant_topic_tools::MessageType]
    (src/MessageType.cpp, include/variant_topic_tools/MessageType.h) and of the
    exceptions it throws (src/Exceptions.cpp).

    [std::string] is [string] (a list of bytes), [std::set<std::string>] is
    [gset string], [std::list<std::string>] is [list string].  The collaborators
    whose sources are not embedded here (the ROS package lookup, the
    file system, the definition line parser, the data type registry, the
    publisher and subscriber implementations) are the fields of the records
    [Collaborators] and [Transport], over which every statement is
    quantified.  The loop of [load] is run with fuel, and [load_ends] bounds
    the fuel that is needed. *)

From Stdlib Require Import Ascii String NArith DecimalString DecimalN.
From stdpp Require Import base decidable option list gmap strings.

(** ** Strings as [std::string] *)

Module Str.

(** [std::string::empty]. *)
Definition empty (s : string) : bool :=
  match s with
  | EmptyString => true
  | String _ _ => false
  end.

(** [std::string(n, c)]. *)
Fixpoint fill (n : nat) (c : ascii) : string :=
  match n with
  | O => EmptyString
  | S k => String c (fill k c)
  end.

(** [std::string::find_first_of(c)]; [None] stands for [npos]. *)
Fixpoint find_first_of (c : ascii) (s : string) : option nat :=
  match s with
  | EmptyString => None
  | String d rest =>
      if Ascii.eqb d c then Some O
      else match find_first_of c rest with
           | Some i => Some (S i)
           | None => None
           end
  end.

(** [s.substr(pos, n)], for [pos] within the string. *)
Definition substr (pos n : nat) (s : string) : string :=
  String.substring pos n s.

(** [s.substr(pos)]: everything from [pos] on, for [pos] within the string. *)
Definition substr_from (pos : nat) (s : string) : string :=
  String.substring pos (String.length s - pos) s.

(** The line feed character. *)
Definition LF : ascii := Ascii.ascii_of_nat 10.

Definition newline : string := String LF EmptyString.

(** The successive results of [std::getline(stream, line)] over an
    [std::istringstream] holding [s], up to the first failing call: the
    text is cut at every line feed, and a last line that lacks its line
    feed is still delivered. *)
Fixpoint getlines (s : string) : list string :=
  match s with
  | EmptyString => []
  | String c rest =>
      if Ascii.eqb c LF then EmptyString :: getlines rest
      else match getlines rest with
           | [] => [String c EmptyString]
           | l :: ls => String c l :: ls
           end
  end.

(** The strings of [l], one after the other. *)
Definition join (l : list string) : string :=
  foldr String.append EmptyString l.

(** Number of positions of [hay] at which [needle] starts. *)
Fixpoint occurrences (needle hay : string) : nat :=
  match hay with
  | EmptyString => if Str.empty needle then 1 else 0
  | String _ rest =>
      (if String.prefix needle hay then 1 else 0) + occurrences needle rest
  end.

End Str.

(** ** The value object *)

(** The three protected members of [class MessageType]. *)
Record MessageType : Type := mkMessageType {
  dataType : string;
  md5Sum : string;
  definition : string
}.

Module MessageType.

(** The default constructor: [MessageType(dataType = std::string(),
    md5Sum = "*", definition = std::string())]. *)
Definition default : MessageType := mkMessageType "" "*" "".

Definition setDataType (d : string) (m : MessageType) : MessageType :=
  mkMessageType d (md5Sum m) (definition m).

Definition setMD5Sum (s : string) (m : MessageType) : MessageType :=
  mkMessageType (dataType m) s (definition m).

Definition setDefinition (d : string) (m : MessageType) : MessageType :=
  mkMessageType (dataType m) (md5Sum m) d.

(** [MessageType::isValid]. *)
Definition isValid (m : MessageType) : bool :=
  negb (Str.empty (md5Sum m))
  && (String.eqb (md5Sum m) "*" || Nat.eqb (String.length (md5Sum m)) 32)
  && negb (Str.empty (dataType m))
  && negb (Str.empty (definition m)).

(** [MessageType::clear]. *)
Definition clear (m : MessageType) : MessageType :=
  setDefinition "" (setMD5Sum "*" (setDataType "" m)).

(** [MessageType::write]: what is sent to the stream. *)
Definition write (m : MessageType) : string := dataType m.

(** [MessageType::operator==]. *)
Definition op_eq (a b : MessageType) : bool :=
  String.eqb (dataType a) (dataType b) && String.eqb (md5Sum a) (md5Sum b).

(** [MessageType::operator!=]. *)
Definition op_ne (a b : MessageType) : bool :=
  negb (String.eqb (dataType a) (dataType b))
  || negb (String.eqb (md5Sum a) (md5Sum b)).

End MessageType.

(** ** Exceptions thrown by the loader (src/Exceptions.cpp) *)

Inductive Exception : Type :=
| InvalidDataTypeException
| InvalidMessageTypeException (invalidMessageType : string)
| PackageNotFoundException (package : string)
| FileOpenException (filename : string).

(** [ros::Exception::what] of each of them. *)
Definition what (e : Exception) : string :=
  match e with
  | InvalidDataTypeException => "Attempted use of an invalid data type"
  | InvalidMessageTypeException t => "Message type [" +:+ t +:+ "] is invalid"
  | PackageNotFoundException p => "Package [" +:+ p +:+ "] not found"
  | FileOpenException f => "Error opening file [" +:+ f +:+ "]"
  end.

(** Exceptional control flow: a computation either throws or returns. *)
Definition Throwing (A : Type) : Type := (Exception + A)%type.

Definition ret {A : Type} (a : A) : Throwing A := inr a.

Definition throw {A : Type} (e : Exception) : Throwing A := inl e.

Definition bind {A B : Type} (c : Throwing A) (k : A -> Throwing B)
  : Throwing B :=
  match c with
  | inl e => inl e
  | inr a => k a
  end.

Notation "x <- c ;; k" := (bind c (fun x => k))
  (at level 20, c at level 99, k at level 200, only parsing).
Notation "' p <- c ;; k" := (bind c (fun x => let 'p := x in k))
  (at level 20, p pattern, c at level 99, k at level 200, only parsing).

(** ** Collaborators of [MessageType::load]

    None of them is defined in MessageType.cpp; [load] only calls them. *)
Record Collaborators : Type := mkCollaborators {
  (** [ros::package::getPath(package)]: the empty string when the package is
      not found. *)
  getPath : string -> string;
  (** [std::ifstream messageFile(filename)] read to its end: [None] when
      [is_open()] is false, the content otherwise. *)
  readFile : string -> option string;
  (** [MessageDefinitionParser::matchArray(line, memberName, memberType,
      memberSize)]: the three outputs when it returns true. *)
  matchArray : string -> option (string * string * nat);
  (** [MessageDefinitionParser::match(line, memberName, memberType)]: the
      two outputs when it returns true. *)
  match_ : string -> option (string * string);
  (** [registry.getDataType(memberType).isBuiltin()]. *)
  isBuiltin : string -> bool
}.

(** ** [MessageType::load] *)

(** The locals of [load] that live across iterations, next to the object
    itself. *)
Record LoadState : Type := mkLoadState {
  this : MessageType;
  requiredTypes : gset string;
  requiredTypesInOrder : list string
}.

(** What a call leaves behind: the object after a normal return, the
    exception and the object when it throws, and the object reached when
    the given number of loop iterations did not empty the queue. *)
Inductive Outcome : Type :=
| Returns (m : MessageType)
| Throws (e : Exception) (m : MessageType)
| Unfinished (m : MessageType).

Definition object (o : Outcome) : MessageType :=
  match o with
  | Returns m | Throws _ m | Unfinished m => m
  end.

Module Loader.

(** Lines 113-120: the split at the first ['/'], made only when it is found
    at a position greater than zero. *)
Definition splitType (currentType : string) : string * string :=
  match Str.find_first_of "/" currentType with
  | Some i =>
      if Nat.ltb 0 i
      then (Str.substr 0 i currentType, Str.substr_from (i + 1) currentType)
      else ("", currentType)
  | None => ("", currentType)
  end.

(** Lines 122-130: the alias of a bare [Header] and the two checks. *)
Definition qualify (currentType : string) : Throwing (string * string) :=
  let '(package, type) := splitType currentType in
  package <- (if Str.empty package
              then if String.eqb type "Header"
                   then ret "std_msgs"
                   else throw (InvalidMessageTypeException currentType)
              else ret package) ;;
  if Str.empty type then throw InvalidDataTypeException
  else ret (package, type).

(** Line 136. *)
Definition messageFilename (packagePath type : string) : string :=
  packagePath +:+ "/msg/" +:+ type +:+ ".msg".

(** Lines 110-151: from the identifier to the content of its file. *)
Definition readDefinition (env : Collaborators) (currentType : string)
  : Throwing string :=
  '(package, type) <- qualify currentType ;;
  let packagePath := getPath env package in
  if Str.empty packagePath then throw (PackageNotFoundException package)
  else
    match readFile env (messageFilename packagePath type) with
    | Some messageDefinition => ret messageDefinition
    | None => throw (FileOpenException (messageFilename packagePath type))
    end.

(** Lines 161-163: [matchArray(...) || match(...)], and the member type the
    successful call has written. *)
Definition matchMember (env : Collaborators) (line : string)
  : option string :=
  match matchArray env line with
  | Some (_, memberType, _) => Some memberType
  | None =>
      match match_ env line with
      | Some (_, memberType) => Some memberType
      | None => None
      end
  end.

(** Lines 164-165. *)
Definition normalize (memberType : string) : string :=
  if String.eqb memberType "Header" then "std_msgs/Header" else memberType.

(** Lines 158-172: the body of the [getline] loop. *)
Definition scanLine (env : Collaborators) (st : LoadState) (line : string)
  : LoadState :=
  match matchMember env line with
  | Some memberType =>
      let memberType := normalize memberType in
      if negb (isBuiltin env memberType)
         && bool_decide (memberType ∉ requiredTypes st)
      then mkLoadState (this st)
             ({[memberType]} ∪ requiredTypes st)
             (requiredTypesInOrder st ++ [memberType])
      else st
  | None => st
  end.

(** Line 176: the rule line between two line feeds. *)
Definition ruleLine : string :=
  Str.newline +:+ Str.fill 80 "=" +:+ Str.newline.

(** Line 177. *)
Definition nameLine (currentType : string) : string :=
  "MSG: " +:+ currentType +:+ Str.newline.

(** Lines 175-179: what becomes of [definition]. *)
Definition appendDefinition (currentType messageDefinition : string)
    (definition : string) : string :=
  let definition :=
    if negb (Str.empty definition)
    then (definition +:+ ruleLine) +:+ nameLine currentType
    else definition in
  definition +:+ messageDefinition.

(** Lines 153-180. *)
Definition absorb (env : Collaborators) (currentType : string)
    (messageDefinition : string) (st : LoadState) : LoadState :=
  if negb (Str.empty messageDefinition) then
    let st := foldl (scanLine env) st (Str.getlines messageDefinition) in
    mkLoadState
      (MessageType.setDefinition
         (appendDefinition currentType messageDefinition
            (definition (this st)))
         (this st))
      (requiredTypes st) (requiredTypesInOrder st)
  else st.

(** Line 182: [pop_front]. *)
Definition pop_front (st : LoadState) : LoadState :=
  mkLoadState (this st) (requiredTypes st) (tail (requiredTypesInOrder st)).

(** Lines 110-182: one iteration of the [while] loop, for the identifier at
    the front of the queue. *)
Definition iteration (env : Collaborators) (currentType : string)
    (st : LoadState) : Throwing LoadState :=
  messageDefinition <- readDefinition env currentType ;;
  ret (pop_front (absorb env currentType messageDefinition st)).

(** Lines 109-183: the [while] loop, run for at most [fuel] iterations. *)
Fixpoint loop (env : Collaborators) (fuel : nat) (st : LoadState)
  : Outcome :=
  match requiredTypesInOrder st with
  | [] => Returns (this st)
  | currentType :: _ =>
      match fuel with
      | O => Unfinished (this st)
      | S fuel' =>
          match iteration env currentType st with
          | inl e => Throws e (this st)
          | inr st' => loop env fuel' st'
          end
      end
  end.

(** Lines 100-107: the state in which the loop is entered. *)
Definition enter (messageDataType : string) (m : MessageType) : LoadState :=
  mkLoadState (MessageType.clear m)
    ({[messageDataType]} ∪ ∅) ([] ++ [messageDataType]).

(** Lines 185-186. *)
Definition leave (messageDataType : string) (m : MessageType)
  : MessageType :=
  if negb (Str.empty (definition m))
  then MessageType.setDataType messageDataType m
  else m.

(** [MessageType::load(messageDataType)] on the object [m]. *)
Definition load (env : Collaborators) (fuel : nat)
    (messageDataType : string) (m : MessageType) : Outcome :=
  match loop env fuel (enter messageDataType m) with
  | Returns m' => Returns (leave messageDataType m')
  | Throws e m' => Throws e m'
  | Unfinished m' => Unfinished m'
  end.

End Loader.

(** ** [MessageType::advertise] and [MessageType::subscribe] *)

(** The transport side: the node handle, the callbacks and the two
    implementation classes behind the handles, with their constructors
    ([Publisher::Impl(nodeHandle, type, topic, queueSize, latch,
    connectCallback)], [Subscriber::Impl(nodeHandle, type, topic, queueSize,
    callback)]).  None of them is defined in MessageType.cpp. *)
Record Transport : Type := mkTransport {
  NodeHandle : Type;
  SubscriberStatusCallback : Type;
  SubscriberCallback : Type;
  PublisherImpl : Type;
  SubscriberImpl : Type;
  newPublisherImpl :
    NodeHandle -> MessageType -> string -> nat -> bool ->
    SubscriberStatusCallback -> PublisherImpl;
  newSubscriberImpl :
    NodeHandle -> MessageType -> string -> nat ->
    SubscriberCallback -> SubscriberImpl
}.

(** A handle is a shared pointer to its implementation; [None] is the null
    pointer of a default-constructed handle. *)
Record Publisher (T : Transport) : Type := mkPublisher {
  publisherImpl : option (PublisherImpl T)
}.

Record Subscriber (T : Transport) : Type := mkSubscriber {
  subscriberImpl : option (SubscriberImpl T)
}.

Arguments mkPublisher {T} _.
Arguments publisherImpl {T} _.
Arguments mkSubscriber {T} _.
Arguments subscriberImpl {T} _.

Module Binding.

(** [impl.reset(p)] on a publisher. *)
Definition resetPublisher {T : Transport} (p : PublisherImpl T)
    (publisher : Publisher T) : Publisher T :=
  mkPublisher (Some p).

(** [impl.reset(p)] on a subscriber. *)
Definition resetSubscriber {T : Transport} (p : SubscriberImpl T)
    (subscriber : Subscriber T) : Subscriber T :=
  mkSubscriber (Some p).

(** [MessageType::advertise]. *)
Definition advertise {T : Transport} (m : MessageType)
    (nodeHandle : NodeHandle T) (topic : string) (queueSize : nat)
    (latch : bool) (connectCallback : SubscriberStatusCallback T)
  : Publisher T :=
  let publisher := mkPublisher None in
  if MessageType.isValid m
  then resetPublisher
         (newPublisherImpl T nodeHandle m topic queueSize latch
            connectCallback)
         publisher
  else publisher.

(** [MessageType::subscribe]. *)
Definition subscribe {T : Transport} (m : MessageType)
    (nodeHandle : NodeHandle T) (topic : string) (queueSize : nat)
    (callback : SubscriberCallback T) : Subscriber T :=
  let subscriber := mkSubscriber None in
  resetSubscriber
    (newSubscriberImpl T nodeHandle m topic queueSize callback)
    subscriber.

(** A handle is bound when its pointer is not null. *)
Definition boundPublisher {T : Transport} (p : Publisher T) : bool :=
  match publisherImpl p with Some _ => true | None => false end.

Definition boundSubscriber {T : Transport} (s : Subscriber T) : bool :=
  match subscriberImpl s with Some _ => true | None => false end.

End Binding.

(** ** Vocabulary of the statements *)

Module Discovery.

(** The compound member type a line declares, after the normalisation of
    [Header]: what [Loader.scanLine] offers to the working set. *)
Definition lineReferences (env : Collaborators) (line : string)
  : list string :=
  match Loader.matchMember env line with
  | Some memberType =>
      if isBuiltin env (Loader.normalize memberType) then []
      else [Loader.normalize memberType]
  | None => []
  end.

(** The compound member types a definition text declares, line by line. *)
Definition compoundMembers (env : Collaborators) (text : string)
  : list string :=
  flat_map (lineReferences env) (Str.getlines text).

(** The text loaded for an identifier (empty when loading throws). *)
Definition textOf (env : Collaborators) (t : string) : string :=
  match Loader.readDefinition env t with
  | inr text => text
  | inl _ => ""
  end.

(** The compound member types the definition of [t] declares. *)
Definition references (env : Collaborators) (t : string) : list string :=
  compoundMembers env (textOf env t).

(** [seen], extended by the elements of [l] not yet in it, each at its
    first occurrence. *)
Definition collect (seen l : list string) : list string :=
  foldl (fun acc x => if bool_decide (x ∈ acc) then acc else (acc ++ [x])%list)
    seen l.

(** The identifiers known once the types [loaded] have been scanned, in
    the order of their first discovery: the root, then whatever the
    loaded types reference. *)
Definition discovered (env : Collaborators) (root : string)
    (loaded : list string) : list string :=
  collect [] (root :: flat_map (references env) loaded).

(** [loaded] takes the identifiers in discovery order: each one is the
    first identifier discovered so far that has not been loaded yet. *)
Definition inDiscoveryOrder (env : Collaborators) (root : string)
    (loaded : list string) : Prop :=
  forall (before : list string) (t : string) (after : list string),
    loaded = (before ++ t :: after)%list ->
    (before ++ [t])%list `prefix_of` discovered env root before.

(** The blocks the loaded types contribute to the definition: one for each
    type whose text is not empty. *)
Definition blocks (env : Collaborators) (loaded : list string)
  : list (string * string) :=
  omap (fun t => if Str.empty (textOf env t) then None
                 else Some (t, textOf env t)) loaded.

(** A block after its separator. *)
Definition separated (b : string * string) : string :=
  Loader.ruleLine +:+ Loader.nameLine (fst b) +:+ snd b.

(** The definition made of the blocks [bs]: the first one bare, every
    other one after its separator. *)
Definition render (bs : list (string * string)) : string :=
  match bs with
  | [] => ""
  | b :: bs' => snd b +:+ Str.join (map separated bs')
  end.

(** [t] has been loaded: its file has been found and read. *)
Definition read (env : Collaborators) (t : string) : Prop :=
  Loader.readDefinition env t = inr (textOf env t).

(** The invariant of the loop of [load], with the types [loaded] behind
    it: the loaded types followed by the queue are the identifiers
    discovered so far, in discovery order; the set holds exactly those;
    the object holds the blocks of the loaded types, and no data type. *)
Definition invariant (env : Collaborators) (root : string)
    (loaded : list string) (st : LoadState) : Prop :=
  (loaded ++ requiredTypesInOrder st)%list = discovered env root loaded
  /\ requiredTypes st = list_to_set (loaded ++ requiredTypesInOrder st)
  /\ inDiscoveryOrder env root loaded
  /\ Forall (read env) loaded
  /\ this st = mkMessageType "" "*" (render (blocks env loaded)).

End Discovery.

(** ** The validity test in the words of the specification *)

Module SpecWords.

Definition isHexDigit (c : ascii) : bool :=
  let n := Ascii.nat_of_ascii c in
  (Nat.leb 48 n && Nat.leb n 57)
  || (Nat.leb 97 n && Nat.leb n 102)
  || (Nat.leb 65 n && Nat.leb n 70).

Fixpoint allHex (s : string) : bool :=
  match s with
  | EmptyString => true
  | String c rest => isHexDigit c && allHex rest
  end.

(** "true iff signature is non-empty and is either the wildcard token or
    exactly 32 hexadecimal characters, AND dataType is non-empty, AND
    definition is non-empty". *)
Definition isValid (m : MessageType) : bool :=
  negb (Str.empty (md5Sum m))
  && (String.eqb (md5Sum m) "*"
      || (Nat.eqb (String.length (md5Sum m)) 32 && allHex (md5Sum m)))
  && negb (Str.empty (dataType m))
  && negb (Str.empty (definition m)).

End SpecWords.

(** ** A sample installation

    A small package tree on which the loader is run in the examples below:
    three packages, seven message files. *)

Module Sample.

(** A text made of the given lines, each closed by a line feed. *)
Definition text (ls : list string) : string :=
  Str.join (map (fun l => l +:+ Str.newline) ls).

Definition packages : list (string * string) :=
  [ ("std_msgs", "/opt/ros/share/std_msgs");
    ("geometry_msgs", "/opt/ros/share/geometry_msgs");
    ("demo", "/ws/src/demo") ].

Definition headerText : string :=
  text ["uint32 seq"; "time stamp"; "string frame_id"].

Definition pointText : string :=
  text ["float64 x"; "float64 y"; "float64 z"].

Definition segmentText : string :=
  text ["Header header"; "geometry_msgs/Point first";
        "geometry_msgs/Point second"].

Definition pingText : string :=
  text ["# a ping carries nothing"; "std_msgs/Empty request";
        "std_msgs/Empty reply"].

Definition ackText : string :=
  text ["Header header"; "std_msgs/Empty token"].

Definition brokenText : string :=
  text ["uint8 code"; "absent_msgs/Thing thing"].

Definition files : gmap string string :=
  list_to_map
    [ ("/opt/ros/share/std_msgs/msg/Header.msg", headerText);
      ("/opt/ros/share/std_msgs/msg/Empty.msg", "");
      ("/opt/ros/share/geometry_msgs/msg/Point.msg", pointText);
      ("/ws/src/demo/msg/Segment.msg", segmentText);
      ("/ws/src/demo/msg/Ping.msg", pingText);
      ("/ws/src/demo/msg/Ack.msg", ackText);
      ("/ws/src/demo/msg/Broken.msg", brokenText) ].

Definition builtins : list string :=
  [ "bool"; "int8"; "uint8"; "int16"; "uint16"; "int32"; "uint32";
    "int64"; "uint64"; "float32"; "float64"; "string"; "time";
    "duration" ].

Fixpoint assoc (k : string) (l : list (string * string)) : string :=
  match l with
  | [] => ""
  | (k', v) :: l' => if String.eqb k k' then v else assoc k l'
  end.

(** The two parts of a line around its first blank, when both are there
    and the line is not a comment. *)
Definition aroundBlank (line : string) : option (string * string) :=
  match Str.find_first_of " " line with
  | Some i =>
      let typeName := Str.substr 0 i line in
      let memberName := Str.substr_from (i + 1) line in
      if Str.empty typeName || Str.empty memberName
         || String.prefix "#" typeName
      then None
      else Some (typeName, memberName)
  | None => None
  end.

(** Modelled from the spec: the parser's plain form,
    "<typeName> <memberName>" (MessageDefinitionParser is not embedded
    here). *)
Definition plainForm (line : string) : option (string * string) :=
  match aroundBlank line with
  | Some (typeName, memberName) =>
      match Str.find_first_of "[" typeName with
      | Some _ => None
      | None => Some (memberName, typeName)
      end
  | None => None
  end.

(** Modelled from the spec: the parser's array form,
    "<typeName>[<optionalSize>] <memberName>" (MessageDefinitionParser is
    not embedded here); the size is not read. *)
Definition arrayForm (line : string) : option (string * string * nat) :=
  match aroundBlank line with
  | Some (typeName, memberName) =>
      match Str.find_first_of "[" typeName with
      | Some i =>
          if Nat.ltb 0 i then Some (memberName, Str.substr 0 i typeName, 0)
          else None
      | None => None
      end
  | None => None
  end.

Definition env : Collaborators :=
  mkCollaborators
    (fun package => assoc package packages)
    (fun filename => files !! filename)
    arrayForm
    plainForm
    (fun t => bool_decide (t ∈ builtins)).

(** A transport whose implementations merely record the arguments of
    their constructors. *)
Definition transport : Transport :=
  mkTransport unit unit unit
    (MessageType * string * nat * bool) (MessageType * string * nat)
    (fun _ m topic queueSize latch _ => (m, topic, queueSize, latch))
    (fun _ m topic queueSize _ => (m, topic, queueSize)).

End Sample.

(** ** All the exceptions of src/Exceptions.cpp *)

Module Exceptions.

(** [boost::lexical_cast<std::string>(index)] of a [size_t]: its decimal
    digits. *)
Definition lexical_cast (index : N) : string :=
  NilEmpty.string_of_uint (N.to_uint index).

(** One constructor for each constructor of an exception class; the class
    [NoSuchMessageFieldException] has two. *)
Inductive t : Type :=
| InvalidOperation
| InvalidDataType
| ImmutableDataType
| NoSuchDataType (identifier : string)
| AmbiguousDataTypeIdentifier (identifier : string)
| DataTypeMismatch (expectedDataType providedDataType : string)
| InvalidMessageMember
| NoSuchMessageMember (index : N)
| MD5SumMismatch (expectedMD5Sum providedMD5Sum : string)
| NoSuchMessageFieldIndex (index : N)
| NoSuchMessageFieldName (name : string)
| InvalidMessageType (invalidMessageType : string)
| DefinitionParse (dataType line what : string)
| PackageNotFound (package : string)
| FileOpen (filename : string).

(** The text each constructor hands to [ros::Exception]. *)
Definition what (e : t) : string :=
  match e with
  | InvalidOperation => "Attempted execution of an invalid operation"
  | InvalidDataType => "Attempted use of an invalid data type"
  | ImmutableDataType => "Attempted modification of an immutable data type"
  | NoSuchDataType identifier =>
      "Data type [" +:+ identifier +:+ "] does not exist"
  | AmbiguousDataTypeIdentifier identifier =>
      "Data type identifier [" +:+ identifier +:+ "] is used ambiguously"
  | DataTypeMismatch expectedDataType providedDataType =>
      "Provided data type [" +:+ providedDataType
      +:+ "] mismatches expected data type [" +:+ expectedDataType +:+ "]"
  | InvalidMessageMember => "Attempted use of an invalid message member"
  | NoSuchMessageMember index =>
      "Member with index [" +:+ lexical_cast index +:+ "] does not exist"
  | MD5SumMismatch expectedMD5Sum providedMD5Sum =>
      "Provided MD5 sum [" +:+ providedMD5Sum
      +:+ "] mismatches expected MD5 sum [" +:+ expectedMD5Sum +:+ "]"
  | NoSuchMessageFieldIndex index =>
      "Field with index [" +:+ lexical_cast index +:+ "] does not exist"
  | NoSuchMessageFieldName name =>
      "Field with name [" +:+ name +:+ "] does not exist"
  | InvalidMessageType invalidMessageType =>
      "Message type [" +:+ invalidMessageType +:+ "] is invalid"
  | DefinitionParse dataType line what =>
      "Error parsing the definition for [" +:+ dataType +:+ "]: "
      +:+ what +:+ Str.newline +:+ line
  | PackageNotFound package => "Package [" +:+ package +:+ "] not found"
  | FileOpen filename => "Error opening file [" +:+ filename +:+ "]"
  end.

(** The exceptions [load] throws, among all of them. *)
Definition ofLoader (e : Exception) : t :=
  match e with
  | InvalidDataTypeException => InvalidDataType
  | InvalidMessageTypeException t => InvalidMessageType t
  | PackageNotFoundException p => PackageNotFound p
  | FileOpenException f => FileOpen f
  end.

(** The exception classes. *)
Inductive Class : Type :=
| InvalidOperationException
| InvalidDataTypeException
| ImmutableDataTypeException
| NoSuchDataTypeException
| AmbiguousDataTypeIdentifierException
| DataTypeMismatchException
| InvalidMessageMemberException
| NoSuchMessageMemberException
| MD5SumMismatchException
| NoSuchMessageFieldException
| InvalidMessageTypeException
| DefinitionParseException
| PackageNotFoundException
| FileOpenException.

(** The class each constructor belongs to. *)
Definition classOf (e : t) : Class :=
  match e with
  | InvalidOperation => InvalidOperationException
  | InvalidDataType => InvalidDataTypeException
  | ImmutableDataType => ImmutableDataTypeException
  | NoSuchDataType _ => NoSuchDataTypeException
  | AmbiguousDataTypeIdentifier _ => AmbiguousDataTypeIdentifierException
  | DataTypeMismatch _ _ => DataTypeMismatchException
  | InvalidMessageMember => InvalidMessageMemberException
  | NoSuchMessageMember _ => NoSuchMessageMemberException
  | MD5SumMismatch _ _ => MD5SumMismatchException
  | NoSuchMessageFieldIndex _ => NoSuchMessageFieldException
  | NoSuchMessageFieldName _ => NoSuchMessageFieldException
  | InvalidMessageType _ => InvalidMessageTypeException
  | DefinitionParse _ _ _ => DefinitionParseException
  | PackageNotFound _ => PackageNotFoundException
  | FileOpen _ => FileOpenException
  end.

End Exceptions.

(** * Properties *)

(** ** Strings *)

Lemma empty_true (s : string) : Str.empty s = true <-> s = "".
Proof. destruct s; simpl; split; congruence. Qed.

Lemma empty_false (s : string) : Str.empty s = false <-> s <> "".
Proof. destruct s; simpl; split; congruence. Qed.

Lemma empty_append (s t : string) :
  Str.empty (s +:+ t) = Str.empty s && Str.empty t.
Proof. destruct s; reflexivity. Qed.

Lemma append_cons (c : ascii) (s t : string) :
  String c s +:+ t = String c (s +:+ t).
Proof. reflexivity. Qed.

Lemma append_assoc (s t u : string) : (s +:+ t) +:+ u = s +:+ (t +:+ u).
Proof.
  induction s as [|c s IH]; [reflexivity |].
  rewrite !append_cons. f_equal. exact IH.
Qed.

Lemma append_empty_r (s : string) : s +:+ "" = s.
Proof.
  induction s as [|c s IH]; [reflexivity |].
  rewrite append_cons. f_equal. exact IH.
Qed.

Lemma find_first_of_head (c : ascii) (s : string) :
  Str.find_first_of c (String c s) = Some 0.
Proof. simpl. now rewrite Ascii.eqb_refl. Qed.

(** ** The value object *)

Lemma clear_is_default (m : MessageType) :
  MessageType.clear m = mkMessageType "" "*" "".
Proof. reflexivity. Qed.

Lemma clear_invalid (m : MessageType) :
  MessageType.isValid (MessageType.clear m) = false.
Proof. reflexivity. Qed.

Example isValid_sample :
  MessageType.isValid (mkMessageType "pkg/Type" "*" "field1") = true.
Proof. reflexivity. Qed.

(** C2, as the code has it: [isValid] holds exactly when the signature is
    not empty and is the wildcard or has length 32, whatever its characters
    are, and the data type and the definition are not empty. *)
Theorem isValid_iff (m : MessageType) :
  MessageType.isValid m = true <->
  md5Sum m <> "" /\
  (md5Sum m = "*" \/ String.length (md5Sum m) = 32) /\
  dataType m <> "" /\
  definition m <> "".
Proof.
  unfold MessageType.isValid.
  rewrite !andb_true_iff, orb_true_iff, !negb_true_iff, !empty_false.
  rewrite String.eqb_eq, Nat.eqb_eq. tauto.
Qed.

(** C2, as stated, fails: a signature of 32 characters that are not
    hexadecimal digits is accepted by the code, and refused by the test the
    specification words. *)
Lemma isValid_accepts_non_hex :
  let m := mkMessageType "pkg/Type" "zzzzzzzzzzzzzzzzzzzzzzzzzzzzzzzz" "field1" in
  MessageType.isValid m = true /\ SpecWords.isValid m = false.
Proof. split; reflexivity. Qed.

(** C7: [operator==] compares the data type and the signature and nothing
    else, so objects that differ in their definition only are equal, and
    [operator!=] is its negation. *)
Theorem equality_ignores_definition (a b : MessageType) :
  (MessageType.op_eq a b = true <->
     dataType a = dataType b /\ md5Sum a = md5Sum b) /\
  MessageType.op_ne a b = negb (MessageType.op_eq a b) /\
  MessageType.op_eq a (MessageType.setDefinition (definition b) a) = true.
Proof.
  unfold MessageType.op_eq, MessageType.op_ne. split; [| split].
  - rewrite andb_true_iff, !String.eqb_eq. tauto.
  - now rewrite negb_andb.
  - simpl. now rewrite !String.eqb_refl.
Qed.

Example equal_despite_definition :
  MessageType.op_eq (mkMessageType "pkg/Type" "*" "int32 a")
                    (mkMessageType "pkg/Type" "*" "string b") = true
  /\ MessageType.op_eq (mkMessageType "pkg/Type" "*" "int32 a")
       (mkMessageType "pkg/Type" "0123456789abcdef0123456789abcdef" "int32 a")
     = false.
Proof. split; reflexivity. Qed.

(** ** Publishers and subscribers *)

(** C8: [advertise] binds the publisher exactly when the object is valid and
    otherwise returns the default, unbound handle without throwing;
    [subscribe] binds the subscriber whatever the object is. *)
Theorem advertise_gated_subscribe_not (T : Transport) (m : MessageType)
    (nodeHandle : NodeHandle T) (topic : string) (queueSize : nat)
    (latch : bool) (connectCallback : SubscriberStatusCallback T)
    (callback : SubscriberCallback T) :
  publisherImpl
    (Binding.advertise m nodeHandle topic queueSize latch connectCallback)
  = (if MessageType.isValid m
     then Some (newPublisherImpl T nodeHandle m topic queueSize latch
                  connectCallback)
     else None)
  /\ subscriberImpl (Binding.subscribe m nodeHandle topic queueSize callback)
     = Some (newSubscriberImpl T nodeHandle m topic queueSize callback).
Proof.
  unfold Binding.advertise, Binding.subscribe.
  split; [destruct (MessageType.isValid m) |]; reflexivity.
Qed.

Example advertise_invalid_subscribe_bound :
  let m := MessageType.default in
  Binding.boundPublisher
    (Binding.advertise (T := Sample.transport) m tt "/chatter" 10 false tt)
  = false
  /\ Binding.boundSubscriber
       (Binding.subscribe (T := Sample.transport) m tt "/chatter" 10 tt)
     = true.
Proof. split; reflexivity. Qed.

(** ** The loader: resolving one identifier *)

Lemma splitType_no_separator (t : string) :
  Str.find_first_of "/" t = None -> Loader.splitType t = ("", t).
Proof. unfold Loader.splitType. now intros ->. Qed.

Lemma splitType_leading_separator (rest : string) :
  Loader.splitType (String "/" rest) = ("", String "/" rest).
Proof. unfold Loader.splitType. now rewrite find_first_of_head. Qed.

Lemma qualify_unsplit (t : string) :
  Loader.splitType t = ("", t) ->
  Loader.qualify t =
    if String.eqb t "Header" then ret ("std_msgs", "Header")
    else throw (InvalidMessageTypeException t).
Proof.
  unfold Loader.qualify. intros ->. simpl.
  destruct (String.eqb t "Header") eqn:E; [| reflexivity].
  apply String.eqb_eq in E. now subst t.
Qed.

Lemma qualify_Header : Loader.qualify "Header" = ret ("std_msgs", "Header").
Proof. reflexivity. Qed.

(** The only identifier [qualify] blames is the one it was given. *)
Lemma qualify_blames (t x : string) :
  Loader.qualify t = throw (InvalidMessageTypeException x) -> x = t.
Proof.
  unfold Loader.qualify. destruct (Loader.splitType t) as [package type].
  destruct (Str.empty package); simpl.
  - destruct (String.eqb type "Header"); simpl.
    + destruct (Str.empty type); discriminate.
    + unfold throw. congruence.
  - destruct (Str.empty type); discriminate.
Qed.

Section Resolution.

Variable env : Collaborators.

Lemma readDefinition_qualify_throws (t : string) (e : Exception) :
  Loader.qualify t = throw e -> Loader.readDefinition env t = throw e.
Proof. unfold Loader.readDefinition. now intros ->. Qed.

Lemma readDefinition_blames (t x : string) :
  Loader.readDefinition env t = throw (InvalidMessageTypeException x) ->
  Loader.qualify t = throw (InvalidMessageTypeException x).
Proof.
  unfold Loader.readDefinition.
  destruct (Loader.qualify t) as [e | [package type]]; simpl.
  { unfold throw. now intros [= ->]. }
  destruct (Str.empty _); [discriminate |].
  destruct (readFile env _); discriminate.
Qed.

Lemma readDefinition_Header :
  Loader.readDefinition env "Header"
  = Loader.readDefinition env "std_msgs/Header".
Proof. reflexivity. Qed.

(** What [load] does when the root identifier itself cannot be loaded. *)
Lemma load_root_throws (fuel : nat) (root : string) (m : MessageType)
    (e : Exception) :
  Loader.readDefinition env root = throw e ->
  Loader.load env (S fuel) root m = Throws e (MessageType.clear m).
Proof.
  intros H. unfold Loader.load, Loader.enter. simpl.
  unfold Loader.iteration. now rewrite H.
Qed.

End Resolution.

Example load_Header :
  Loader.load Sample.env 1 "Header" (mkMessageType "a/B" "*" "int8 c")
  = Returns (mkMessageType "Header" "*" Sample.headerText).
Proof. vm_compute. reflexivity. Qed.

Example load_Foo :
  Loader.load Sample.env 1 "Foo" MessageType.default
  = Throws (InvalidMessageTypeException "Foo") (mkMessageType "" "*" "").
Proof. vm_compute. reflexivity. Qed.

Example load_empty_type_name :
  Loader.load Sample.env 1 "demo/" MessageType.default
  = Throws InvalidDataTypeException (mkMessageType "" "*" "").
Proof. vm_compute. reflexivity. Qed.

Example load_missing_file :
  Loader.load Sample.env 1 "demo/Nothing" MessageType.default
  = Throws (FileOpenException "/ws/src/demo/msg/Nothing.msg")
      (mkMessageType "" "*" "").
Proof. vm_compute. reflexivity. Qed.

(** ** First occurrences *)

Lemma collect_cons (seen : list string) (x : string) (l : list string) :
  Discovery.collect seen (x :: l)
  = Discovery.collect
      (if bool_decide (x ∈ seen) then seen else (seen ++ [x])%list) l.
Proof. reflexivity. Qed.

Lemma collect_app (seen l1 l2 : list string) :
  Discovery.collect seen (l1 ++ l2)
  = Discovery.collect (Discovery.collect seen l1) l2.
Proof. apply foldl_app. Qed.

Lemma collect_prefix (seen l : list string) :
  seen `prefix_of` Discovery.collect seen l.
Proof.
  revert seen. induction l as [|x l IH]; intros seen; [reflexivity |].
  rewrite collect_cons. case_bool_decide; [apply IH |].
  etrans; [| apply IH]. now apply prefix_app_r.
Qed.

Lemma collect_elem (seen l : list string) (x : string) :
  x ∈ Discovery.collect seen l <-> x ∈ seen \/ x ∈ l.
Proof.
  revert seen. induction l as [|y l IH]; intros seen.
  - cbn [Discovery.collect foldl]. rewrite elem_of_nil. tauto.
  - rewrite collect_cons, IH, elem_of_cons. case_bool_decide as Hy.
    + split; [tauto |]. intros [H | [-> | H]]; tauto.
    + rewrite elem_of_app, list_elem_of_singleton. tauto.
Qed.

Lemma collect_NoDup (seen l : list string) :
  NoDup seen -> NoDup (Discovery.collect seen l).
Proof.
  revert seen. induction l as [|y l IH]; intros seen H; [exact H |].
  rewrite collect_cons. apply IH. case_bool_decide; [exact H |].
  apply NoDup_app. split; [exact H |]. split; [| apply NoDup_singleton].
  intros x Hx Hxy. apply list_elem_of_singleton in Hxy. now subst x.
Qed.

Lemma discovered_NoDup (env : Collaborators) (root : string)
    (loaded : list string) :
  NoDup (Discovery.discovered env root loaded).
Proof. apply collect_NoDup, NoDup_nil_2. Qed.

Lemma discovered_snoc (env : Collaborators) (root : string)
    (loaded : list string) (t : string) :
  Discovery.discovered env root (loaded ++ [t])
  = Discovery.collect (Discovery.discovered env root loaded)
      (Discovery.references env t).
Proof.
  unfold Discovery.discovered.
  rewrite flat_map_app, app_comm_cons, collect_app.
  cbn [flat_map]. now rewrite app_nil_r.
Qed.

Lemma discovered_head (env : Collaborators) (root : string)
    (loaded : list string) :
  [root] `prefix_of` Discovery.discovered env root loaded.
Proof. unfold Discovery.discovered. rewrite collect_cons. apply collect_prefix. Qed.

Lemma inDiscoveryOrder_nil (env : Collaborators) (root : string) :
  Discovery.inDiscoveryOrder env root [].
Proof. intros before t after H. now destruct before. Qed.

Lemma inDiscoveryOrder_snoc (env : Collaborators) (root : string)
    (loaded : list string) (t : string) :
  Discovery.inDiscoveryOrder env root loaded ->
  (loaded ++ [t])%list `prefix_of` Discovery.discovered env root loaded ->
  Discovery.inDiscoveryOrder env root (loaded ++ [t]).
Proof.
  intros Hl Ht before t' after E.
  destruct after as [|a after _] using rev_ind.
  - apply app_inj_tail in E as [-> ->]. exact Ht.
  - rewrite app_comm_cons, app_assoc in E.
    apply app_inj_tail in E as [E _]. now apply (Hl _ _ after).
Qed.

(** ** Blocks *)

Lemma join_app (l1 l2 : list string) :
  Str.join (l1 ++ l2) = Str.join l1 +:+ Str.join l2.
Proof.
  induction l1 as [|x l1 IH]; [reflexivity |].
  cbn [app Str.join foldr]. fold (Str.join (l1 ++ l2)). fold (Str.join l1).
  now rewrite IH, append_assoc.
Qed.

Lemma blocks_app (env : Collaborators) (l1 l2 : list string) :
  Discovery.blocks env (l1 ++ l2)
  = (Discovery.blocks env l1 ++ Discovery.blocks env l2)%list.
Proof. apply omap_app. Qed.

Lemma blocks_cons (env : Collaborators) (t : string) (l : list string) :
  Discovery.blocks env (t :: l)
  = ((if Str.empty (Discovery.textOf env t) then []
      else [(t, Discovery.textOf env t)]) ++ Discovery.blocks env l)%list.
Proof.
  unfold Discovery.blocks. simpl.
  now destruct (Str.empty (Discovery.textOf env t)).
Qed.

Lemma blocks_texts (env : Collaborators) (l : list string) :
  Forall (fun b => Str.empty (snd b) = false) (Discovery.blocks env l).
Proof.
  induction l as [|t l IH]; [constructor |].
  rewrite blocks_cons.
  destruct (Str.empty (Discovery.textOf env t)) eqn:E; [exact IH |].
  constructor; [exact E | exact IH].
Qed.

Lemma blocks_names (env : Collaborators) (l : list string) :
  map fst (Discovery.blocks env l)
  = filter (fun t => Str.empty (Discovery.textOf env t) = false) l.
Proof.
  induction l as [|t l IH]; [reflexivity |].
  rewrite blocks_cons, filter_cons.
  destruct (Str.empty (Discovery.textOf env t)) eqn:E.
  - rewrite decide_False by discriminate. exact IH.
  - rewrite decide_True by reflexivity. cbn [app map fst]. now rewrite IH.
Qed.

Lemma render_snoc (bs : list (string * string)) (t text : string) :
  Forall (fun b => Str.empty (snd b) = false) bs ->
  Discovery.render (bs ++ [(t, text)])
  = Loader.appendDefinition t text (Discovery.render bs).
Proof.
  intros H. destruct H as [|b bs Hb _].
  - cbn [app Discovery.render map Str.join foldr snd].
    unfold Loader.appendDefinition. cbn [Str.empty negb].
    now rewrite append_empty_r.
  - cbn [app Discovery.render]. unfold Loader.appendDefinition.
    rewrite empty_append, Hb. cbn [andb negb].
    rewrite map_app, join_app. cbn [map Str.join foldr].
    unfold Discovery.separated at 2. cbn [fst snd].
    now rewrite append_empty_r, !append_assoc.
Qed.

(** ** Scanning a definition *)

Section Scanning.

Variable env : Collaborators.

Lemma scanLine_this (st : LoadState) (line : string) :
  this (Loader.scanLine env st line) = this st.
Proof.
  unfold Loader.scanLine. destruct (Loader.matchMember env line); [| reflexivity].
  now destruct (_ && _).
Qed.

Lemma scan_this (lines : list string) (st : LoadState) :
  this (foldl (Loader.scanLine env) st lines) = this st.
Proof.
  revert st. induction lines as [|l lines IH]; intros st; [reflexivity |].
  cbn [foldl]. now rewrite IH, scanLine_this.
Qed.

(** The working set and the queue after a line, [before] being the
    identifiers already taken from the queue. *)
Lemma scanLine_collect (before : list string) (st : LoadState)
    (line : string) :
  requiredTypes st = list_to_set (before ++ requiredTypesInOrder st) ->
  (before ++ requiredTypesInOrder (Loader.scanLine env st line))%list
  = Discovery.collect (before ++ requiredTypesInOrder st)
      (Discovery.lineReferences env line)
  /\ requiredTypes (Loader.scanLine env st line)
     = list_to_set
         (before ++ requiredTypesInOrder (Loader.scanLine env st line)).
Proof.
  intros Hs. unfold Loader.scanLine, Discovery.lineReferences.
  destruct (Loader.matchMember env line) as [memberType |]; [| easy].
  destruct (isBuiltin env (Loader.normalize memberType)); [easy |].
  cbn [negb andb]. rewrite collect_cons. cbn [Discovery.collect foldl].
  set (x := Loader.normalize memberType).
  destruct (decide (x ∈ before ++ requiredTypesInOrder st)) as [Hin | Hin].
  - rewrite (bool_decide_true _ Hin), bool_decide_false; [easy |].
    rewrite Hs, elem_of_list_to_set. tauto.
  - rewrite (bool_decide_false _ Hin), bool_decide_true
      by now rewrite Hs, elem_of_list_to_set.
    cbn [requiredTypesInOrder requiredTypes].
    rewrite app_assoc. split; [reflexivity |].
    rewrite Hs. apply set_eq. intros z.
    rewrite elem_of_union, elem_of_singleton, !elem_of_list_to_set.
    rewrite (elem_of_app _ [x]), list_elem_of_singleton. tauto.
Qed.

Lemma scan_collect (before lines : list string) (st : LoadState) :
  requiredTypes st = list_to_set (before ++ requiredTypesInOrder st) ->
  (before ++ requiredTypesInOrder (foldl (Loader.scanLine env) st lines))%list
  = Discovery.collect (before ++ requiredTypesInOrder st)
      (flat_map (Discovery.lineReferences env) lines)
  /\ requiredTypes (foldl (Loader.scanLine env) st lines)
     = list_to_set
         (before
          ++ requiredTypesInOrder (foldl (Loader.scanLine env) st lines)).
Proof.
  revert st. induction lines as [|l lines IH]; intros st Hs; [easy |].
  cbn [foldl flat_map]. rewrite collect_app.
  destruct (scanLine_collect before st l Hs) as [Hq Hs'].
  rewrite <- Hq. now apply IH.
Qed.

End Scanning.

(** ** The loop of [load] *)

Section LoopInvariant.

Variable env : Collaborators.
Variable root : string.

Lemma invariant_enter (m : MessageType) :
  Discovery.invariant env root [] (Loader.enter root m).
Proof.
  unfold Discovery.invariant, Loader.enter.
  cbn [requiredTypesInOrder requiredTypes this app].
  split; [reflexivity |]. split; [set_solver |].
  split; [apply inDiscoveryOrder_nil |]. split; [constructor | reflexivity].
Qed.

Lemma absorb_this (t text : string) (st : LoadState) :
  this (Loader.absorb env t text st)
  = if Str.empty text then this st
    else MessageType.setDefinition
           (Loader.appendDefinition t text (definition (this st))) (this st).
Proof.
  unfold Loader.absorb. destruct (Str.empty text); cbn [negb this].
  - reflexivity.
  - now rewrite scan_this.
Qed.

Lemma absorb_working_set (t text : string) (st : LoadState) :
  requiredTypesInOrder (Loader.absorb env t text st)
  = requiredTypesInOrder
      (foldl (Loader.scanLine env) st (Str.getlines text))
  /\ requiredTypes (Loader.absorb env t text st)
     = requiredTypes (foldl (Loader.scanLine env) st (Str.getlines text)).
Proof.
  unfold Loader.absorb. destruct (Str.empty text) eqn:E; cbn [negb].
  - apply empty_true in E. now subst text.
  - easy.
Qed.

Lemma read_text (t text : string) :
  Loader.readDefinition env t = inr text ->
  Discovery.textOf env t = text /\ Discovery.read env t.
Proof.
  intros H. unfold Discovery.read, Discovery.textOf. now rewrite H.
Qed.

(** One iteration takes the front of the queue to the loaded types. *)
Lemma iteration_invariant (loaded : list string) (st : LoadState)
    (t : string) (queue : list string) (st' : LoadState) :
  Discovery.invariant env root loaded st ->
  requiredTypesInOrder st = t :: queue ->
  Loader.iteration env t st = inr st' ->
  Discovery.invariant env root (loaded ++ [t]) st'.
Proof.
  intros (Hd & Hs & Ho & Hr & Ht) Hq.
  unfold Loader.iteration.
  destruct (Loader.readDefinition env t) as [e | text] eqn:Hread;
    [discriminate |].
  cbn [bind]. unfold ret. intros [= <-].
  destruct (read_text _ _ Hread) as [Htext Hreadt].
  destruct (absorb_working_set t text st) as [Eq Es].
  destruct (scan_collect env loaded (Str.getlines text) st Hs)
    as [Hcollect Hset].
  rewrite <- Eq in Hcollect, Hset. rewrite <- Es in Hset.
  fold (Discovery.compoundMembers env text) in Hcollect.
  rewrite <- Htext in Hcollect at 2.
  fold (Discovery.references env t) in Hcollect.
  assert (Hfront :
    exists more, requiredTypesInOrder (Loader.absorb env t text st)
                 = t :: queue ++ more).
  { pose proof (collect_prefix (loaded ++ requiredTypesInOrder st)
                  (Discovery.references env t)) as [more Hmore].
    rewrite <- Hcollect, Hq, <- app_assoc in Hmore.
    apply app_inv_head in Hmore. exists more. exact Hmore. }
  destruct Hfront as [more Hfront].
  rewrite Hd, <- discovered_snoc in Hcollect.
  assert (Hnext :
    (loaded ++ [t]) `prefix_of` Discovery.discovered env root loaded).
  { rewrite <- Hd, Hq. exists queue. now rewrite <- app_assoc. }
  unfold Discovery.invariant, Loader.pop_front.
  cbn [requiredTypesInOrder requiredTypes this].
  rewrite Hfront in Hcollect, Hset |- *. cbn [tail].
  rewrite <- (app_assoc loaded [t]). cbn [app].
  split; [exact Hcollect |]. split; [exact Hset |].
  split; [now apply inDiscoveryOrder_snoc |].
  split; [apply Forall_app; split; [exact Hr | now constructor] |].
  rewrite absorb_this, Ht, blocks_app, blocks_cons, Htext.
  destruct (Str.empty text) eqn:E.
  - cbn [Discovery.blocks omap app]. now rewrite app_nil_r.
  - cbn [Discovery.blocks omap app definition MessageType.setDefinition
         dataType md5Sum].
    rewrite render_snoc by apply blocks_texts. reflexivity.
Qed.


Lemma loop_unfold (fuel : nat) (st : LoadState) :
  Loader.loop env fuel st
  = match requiredTypesInOrder st with
    | [] => Returns (this st)
    | currentType :: _ =>
        match fuel with
        | O => Unfinished (this st)
        | S fuel' =>
            match Loader.iteration env currentType st with
            | inl e => Throws e (this st)
            | inr st' => Loader.loop env fuel' st'
            end
        end
    end.
Proof. destruct fuel; reflexivity. Qed.

Lemma iteration_throws (t : string) (st : LoadState) (e : Exception) :
  Loader.iteration env t st = inl e -> Loader.readDefinition env t = inl e.
Proof.
  unfold Loader.iteration.
  destruct (Loader.readDefinition env t); [now intros [= ->] | discriminate].
Qed.

(** However the loop ends, the object holds the blocks of the types it has
    loaded, taken in discovery order, and nothing else.  When the loop
    returns nothing discovered is left to load; when it throws, the
    exception comes from the next identifier in discovery order. *)
Lemma loop_outcome (fuel : nat) (st : LoadState) (loaded : list string) :
  Discovery.invariant env root loaded st ->
  exists done : list string,
    Discovery.inDiscoveryOrder env root done
    /\ Forall (Discovery.read env) done
    /\ object (Loader.loop env fuel st)
       = mkMessageType "" "*" (Discovery.render (Discovery.blocks env done))
    /\ match Loader.loop env fuel st with
       | Returns _ => done = Discovery.discovered env root done
       | Throws e _ =>
           exists t : string,
             (done ++ [t]) `prefix_of` Discovery.discovered env root done
             /\ Loader.readDefinition env t = inl e
       | Unfinished _ => True
       end.
Proof.
  revert st loaded. induction fuel as [|fuel IH]; intros st loaded Hinv;
    rewrite loop_unfold;
    destruct (requiredTypesInOrder st) as [|t queue] eqn:Hq.
  1,3: destruct Hinv as (Hd & _ & Ho & Hr & Ht); exists loaded;
       rewrite Hq, app_nil_r in Hd; cbn [object]; easy.
  - destruct Hinv as (_ & _ & Ho & Hr & Ht). exists loaded. easy.
  - destruct (Loader.iteration env t st) as [e | st'] eqn:Hit.
    + destruct Hinv as (Hd & _ & Ho & Hr & Ht). exists loaded.
      cbn [object]. repeat (split; [easy |]). exists t. split.
      * rewrite <- Hd, Hq. exists queue. now rewrite <- app_assoc.
      * now apply iteration_throws in Hit.
    + apply (IH st' (loaded ++ [t])).
      now apply (iteration_invariant loaded st t queue).
Qed.

(** Enough fuel: when the identifiers that can be reached lie in a finite
    set, the loop ends within as many iterations as the set has
    elements. *)
Lemma loop_ends (U : gset string) (fuel : nat) (st : LoadState)
    (loaded : list string) :
  (forall t r : string, t ∈ U -> r ∈ Discovery.references env t -> r ∈ U) ->
  Discovery.invariant env root loaded st ->
  (forall t : string, t ∈ loaded ++ requiredTypesInOrder st -> t ∈ U) ->
  size U - length loaded <= fuel ->
  forall m : MessageType, Loader.loop env fuel st <> Unfinished m.
Proof.
  intros Hclosed. revert st loaded.
  induction fuel as [|fuel IH]; intros st loaded Hinv Hsub Hfuel m;
    rewrite loop_unfold;
    destruct (requiredTypesInOrder st) as [|t queue] eqn:Hq;
    try discriminate.
  - exfalso.
    assert (Hnd : NoDup (loaded ++ t :: queue)).
    { destruct Hinv as (Hd & _). rewrite Hq in Hd. rewrite Hd.
      apply discovered_NoDup. }
    assert (Hle : length (loaded ++ t :: queue) <= size U).
    { rewrite <- (size_list_to_set (C := gset string)) by exact Hnd.
      apply subseteq_size. intros x Hx.
      apply elem_of_list_to_set in Hx. now apply Hsub. }
    rewrite length_app in Hle. cbn [length] in Hle. lia.
  - destruct (Loader.iteration env t st) as [e | st'] eqn:Hit;
      [discriminate |].
    pose proof (iteration_invariant loaded st t queue st' Hinv Hq Hit)
      as Hinv'.
    apply (IH st' (loaded ++ [t]) Hinv').
    + destruct Hinv' as (Hd' & _). rewrite Hd'. intros x Hx.
      unfold Discovery.discovered in Hx. apply collect_elem in Hx.
      destruct Hx as [Hx | Hx]; [now apply elem_of_nil in Hx |].
      assert (Hroot : root ∈ U).
      { destruct Hinv as (Hd & _).
        destruct (discovered_head env root loaded) as [k Hk].
        rewrite Hq in Hd. apply Hsub. rewrite Hd, Hk. cbn [app].
        apply list_elem_of_here. }
      apply elem_of_cons in Hx as [-> | Hx]; [exact Hroot |].
      apply list_elem_of_In, in_flat_map in Hx as (y & Hy & Hx).
      apply list_elem_of_In in Hy, Hx.
      apply (Hclosed y); [| exact Hx].
      apply Hsub. rewrite elem_of_app in Hy |- *.
      destruct Hy as [Hy | Hy]; [now left | right].
      apply list_elem_of_singleton in Hy as ->. apply list_elem_of_here.
    + assert (Hnd : NoDup (loaded ++ t :: queue)).
      { destruct Hinv as (Hd & _). rewrite Hq in Hd. rewrite Hd.
        apply discovered_NoDup. }
      assert (Hle : length (loaded ++ t :: queue) <= size U).
      { rewrite <- (size_list_to_set (C := gset string)) by exact Hnd.
        apply subseteq_size. intros x Hx.
        apply elem_of_list_to_set in Hx. now apply Hsub. }
      rewrite length_app in Hle |- *. cbn [length] in Hle |- *. lia.
Qed.

(** More fuel does not change the outcome of a loop that has ended. *)
Lemma loop_more_fuel (fuel fuel' : nat) (st : LoadState) :
  fuel <= fuel' ->
  (forall m : MessageType, Loader.loop env fuel st <> Unfinished m) ->
  Loader.loop env fuel' st = Loader.loop env fuel st.
Proof.
  revert fuel' st. induction fuel as [|fuel IH]; intros fuel' st Hle Hend;
    rewrite (loop_unfold fuel'); rewrite loop_unfold in Hend |- *;
    destruct (requiredTypesInOrder st) as [|t queue]; try reflexivity.
  - now destruct (Hend (this st)).
  - destruct fuel' as [|fuel']; [lia |].
    destruct (Loader.iteration env t st) as [e | st']; [reflexivity |].
    apply IH; [lia | exact Hend].
Qed.

End LoopInvariant.

(** ** [load] as a whole *)

Section Load.

Variable env : Collaborators.

Lemma load_outcome (fuel : nat) (root : string) (m : MessageType) :
  exists done : list string,
    Discovery.inDiscoveryOrder env root done
    /\ Forall (Discovery.read env) done
    /\ object (Loader.loop env fuel (Loader.enter root m))
       = mkMessageType "" "*" (Discovery.render (Discovery.blocks env done))
    /\ match Loader.loop env fuel (Loader.enter root m) with
       | Returns _ => done = Discovery.discovered env root done
       | Throws e _ =>
           exists t : string,
             (done ++ [t]) `prefix_of` Discovery.discovered env root done
             /\ Loader.readDefinition env t = inl e
       | Unfinished _ => True
       end.
Proof. apply (loop_outcome env root fuel _ []), invariant_enter. Qed.

Lemma load_object (fuel : nat) (root : string) (m : MessageType) :
  object (Loader.load env fuel root m)
  = match Loader.loop env fuel (Loader.enter root m) with
    | Returns m' => Loader.leave root m'
    | Throws _ m' | Unfinished m' => m'
    end.
Proof.
  unfold Loader.load. now destruct (Loader.loop env fuel _).
Qed.

Lemma load_returns (fuel : nat) (root : string) (m m' : MessageType) :
  Loader.load env fuel root m = Returns m' ->
  exists loaded : list string,
    Discovery.inDiscoveryOrder env root loaded
    /\ Forall (Discovery.read env) loaded
    /\ loaded = Discovery.discovered env root loaded
    /\ m' = Loader.leave root
             (mkMessageType "" "*"
                (Discovery.render (Discovery.blocks env loaded))).
Proof.
  intros H. destruct (load_outcome fuel root m) as (done & Ho & Hr & Hobj & Hd).
  unfold Loader.load in H.
  destruct (Loader.loop env fuel _) as [m0 | |]; try discriminate.
  cbn [object] in Hobj. injection H as <-. subst m0.
  exists done. easy.
Qed.

Lemma load_throws (fuel : nat) (root : string) (m m' : MessageType)
    (e : Exception) :
  Loader.load env fuel root m = Throws e m' ->
  exists (done : list string) (t : string),
    Discovery.inDiscoveryOrder env root done
    /\ Forall (Discovery.read env) done
    /\ (done ++ [t]) `prefix_of` Discovery.discovered env root done
    /\ Loader.readDefinition env t = inl e
    /\ m' = mkMessageType "" "*"
             (Discovery.render (Discovery.blocks env done)).
Proof.
  intros H. destruct (load_outcome fuel root m) as (done & Ho & Hr & Hobj & Hd).
  unfold Loader.load in H.
  destruct (Loader.loop env fuel _) as [| e0 m0 |]; try discriminate.
  cbn [object] in Hobj. injection H as <- <-. subst m0.
  destruct Hd as (t & Hp & Ht). exists done, t. easy.
Qed.

(** The loaded types begin with the root, once. *)
Lemma loaded_root_first (root : string) (loaded : list string) :
  loaded = Discovery.discovered env root loaded ->
  exists rest : list string, loaded = root :: rest /\ root ∉ rest.
Proof.
  intros H. destruct (discovered_head env root loaded) as [rest Hrest].
  rewrite <- H in Hrest. cbn [app] in Hrest. exists rest.
  split; [exact Hrest |].
  pose proof (discovered_NoDup env root loaded) as Hnd.
  rewrite <- H, Hrest in Hnd. now apply NoDup_cons in Hnd as [Hnd _].
Qed.

(** A root whose text declares no compound member is loaded alone. *)
Lemma loaded_alone (root : string) (rest : list string) :
  Discovery.inDiscoveryOrder env root (root :: rest) ->
  Discovery.references env root = [] ->
  rest = [].
Proof.
  intros Ho Hrefs. destruct rest as [|t rest]; [reflexivity |]. exfalso.
  destruct (Ho [root] t rest eq_refl) as [k Hk].
  unfold Discovery.discovered in Hk. cbn [flat_map] in Hk.
  rewrite Hrefs in Hk. cbn in Hk.
  rewrite bool_decide_false in Hk by apply not_elem_of_nil.
  discriminate.
Qed.

End Load.

(** C9: however [load] ends, the signature is the wildcard that the initial
    [clear] has stored; the loader writes no other member than the data
    type and the definition. *)
Theorem load_keeps_wildcard (env : Collaborators) (fuel : nat)
    (root : string) (m : MessageType) :
  md5Sum (object (Loader.load env fuel root m)) = "*"
  /\ md5Sum (MessageType.clear m) = "*".
Proof.
  split; [| reflexivity].
  destruct (load_outcome env fuel root m) as (done & _ & _ & Hobj & _).
  rewrite load_object.
  destruct (Loader.loop env fuel _) as [m' | e m' | m'];
    cbn [object] in Hobj; subst m'; [| reflexivity ..].
  unfold Loader.leave. now destruct (negb _).
Qed.

(** C1, as the code has it: when [load] throws, the data type is empty and
    the signature is the wildcard, and the definition holds the blocks of
    the types loaded before the identifier that could not be loaded; it is
    empty when that identifier is the root. *)
Theorem load_failure_state (env : Collaborators) (fuel : nat) (root : string)
    (m m' : MessageType) (e : Exception)
    (H : Loader.load env fuel root m = Throws e m') :
  dataType m' = "" /\ md5Sum m' = "*" /\
  exists (done : list string) (t : string),
    Discovery.inDiscoveryOrder env root done
    /\ Forall (Discovery.read env) done
    /\ (done ++ [t]) `prefix_of` Discovery.discovered env root done
    /\ Loader.readDefinition env t = inl e
    /\ definition m' = Discovery.render (Discovery.blocks env done)
    /\ (t = root -> definition m' = "").
Proof.
  destruct (load_throws env fuel root m m' e H)
    as (done & t & Ho & Hr & Hp & Ht & ->).
  cbn [dataType md5Sum definition]. split; [reflexivity |].
  split; [reflexivity |]. exists done, t.
  repeat (split; [easy |]). intros ->.
  destruct done as [|d done]; [reflexivity |]. exfalso.
  pose proof (discovered_NoDup env root (d :: done)) as Hnd.
  destruct Hp as [k Hk]. rewrite Hk in Hnd.
  destruct (discovered_head env root (d :: done)) as [k' Hk'].
  rewrite Hk in Hk'. injection Hk' as -> _.
  apply NoDup_app in Hnd as [Hnd _]. cbn [app] in Hnd.
  apply NoDup_cons in Hnd as [Hnd _]. apply Hnd.
  apply elem_of_app. right. apply list_elem_of_here.
Qed.

(** C3, as the code has it: a successful [load] has loaded a sequence of
    identifiers without repetition, in the order of their first discovery,
    that holds the root and every compound type a loaded type references;
    the definition is made of their blocks in that order, one for each
    loaded type whose text is not empty and none for a loaded type whose
    text is empty. *)
Theorem load_once_in_discovery_order (env : Collaborators) (fuel : nat)
    (root : string) (m m' : MessageType)
    (H : Loader.load env fuel root m = Returns m') :
  exists loaded : list string,
    NoDup loaded
    /\ Discovery.inDiscoveryOrder env root loaded
    /\ loaded = Discovery.discovered env root loaded
    /\ Forall (Discovery.read env) loaded
    /\ (forall t r : string,
          t ∈ loaded -> r ∈ Discovery.references env t -> r ∈ loaded)
    /\ definition m' = Discovery.render (Discovery.blocks env loaded)
    /\ NoDup (map fst (Discovery.blocks env loaded))
    /\ (forall t : string,
          t ∈ map fst (Discovery.blocks env loaded)
          <-> t ∈ loaded /\ Discovery.textOf env t <> "").
Proof.
  destruct (load_returns env fuel root m m' H)
    as (loaded & Ho & Hr & Hd & ->).
  assert (Hnd : NoDup loaded).
  { rewrite Hd. apply discovered_NoDup. }
  exists loaded. repeat (split; [easy |]).
  split; [| split; [| split]].
  - intros t r Ht Hr'. rewrite Hd. unfold Discovery.discovered.
    apply collect_elem. right. apply elem_of_cons. right.
    apply list_elem_of_In, in_flat_map. exists t.
    now rewrite <- !list_elem_of_In.
  - unfold Loader.leave. now destruct (negb _).
  - rewrite blocks_names. now apply NoDup_filter.
  - intros t. rewrite blocks_names, list_elem_of_filter, empty_false. tauto.
Qed.

(** C4, as the code has it: after a successful [load] the definition is the
    text of the root, bare, followed by one separated block for each type
    loaded after it whose text is not empty: a line feed, a line of 80
    equals signs, the line "MSG: " with the identifier, and the text.  A
    type whose text is empty adds nothing, no separator either. *)
Theorem separator_before_later_blocks (env : Collaborators) (fuel : nat)
    (root : string) (m m' : MessageType)
    (H : Loader.load env fuel root m = Returns m') :
  exists rest : list string,
    NoDup (root :: rest)
    /\ Discovery.inDiscoveryOrder env root (root :: rest)
    /\ root :: rest = Discovery.discovered env root (root :: rest)
    /\ definition m'
       = Discovery.textOf env root
         +:+ Str.join (map Discovery.separated (Discovery.blocks env rest)).
Proof.
  destruct (load_returns env fuel root m m' H)
    as (loaded & Ho & Hr & Hd & ->).
  destruct (loaded_root_first env root loaded Hd) as (rest & -> & Hnot).
  exists rest. split; [rewrite Hd; apply discovered_NoDup |].
  split; [exact Ho |]. split; [exact Hd |].
  replace (definition (Loader.leave root _))
    with (Discovery.render (Discovery.blocks env (root :: rest)))
    by (unfold Loader.leave; now destruct (negb _)).
  rewrite blocks_cons.
  destruct (Str.empty (Discovery.textOf env root)) eqn:E; [| reflexivity].
  apply empty_true in E.
  rewrite (loaded_alone env root rest Ho).
  - now rewrite E.
  - unfold Discovery.references. now rewrite E.
Qed.

Lemma scan_nothing (env : Collaborators) (lines : list string)
    (st : LoadState) :
  flat_map (Discovery.lineReferences env) lines = [] ->
  foldl (Loader.scanLine env) st lines = st.
Proof.
  revert st. induction lines as [|l lines IH]; intros st H; [reflexivity |].
  cbn [flat_map] in H. apply app_eq_nil in H as [Hl H].
  cbn [foldl]. rewrite <- (IH st H) at 2. f_equal.
  unfold Discovery.lineReferences in Hl. unfold Loader.scanLine.
  destruct (Loader.matchMember env l) as [memberType |]; [| reflexivity].
  destruct (isBuiltin env (Loader.normalize memberType));
    [reflexivity | discriminate].
Qed.

(** C6, as the code has it: a root whose text declares no compound member
    is loaded within one iteration; the definition is that text, with no
    separator, and the data type is the root identifier when the text is
    not empty, and stays empty when the text is empty. *)
Theorem load_without_compound_members (env : Collaborators) (fuel : nat)
    (root : string) (m : MessageType) (text : string)
    (Hread : Loader.readDefinition env root = inr text)
    (Hnone : Discovery.compoundMembers env text = []) :
  Loader.load env (S fuel) root m
  = Returns (mkMessageType (if Str.empty text then "" else root) "*" text).
Proof.
  unfold Loader.load. rewrite loop_unfold.
  unfold Loader.enter at 1. cbn [requiredTypesInOrder app].
  unfold Loader.iteration. rewrite Hread. cbn [bind]. unfold ret.
  rewrite loop_unfold. unfold Loader.pop_front, Loader.absorb.
  destruct (Str.empty text) eqn:E; cbn [negb].
  - apply empty_true in E. subst text. reflexivity.
  - rewrite (scan_nothing env _ _ Hnone).
    cbn [requiredTypesInOrder requiredTypes this Loader.enter app tail].
    unfold Loader.leave, Loader.appendDefinition.
    cbn [definition MessageType.setDefinition MessageType.clear
         MessageType.setMD5Sum MessageType.setDataType dataType md5Sum
         Str.empty negb].
    change ("" +:+ text) with text. now rewrite E.
Qed.

(** C5: an identifier without separator other than [Header] makes [load]
    throw the invalid message type exception at once; a bare [Header] is
    looked up in package [std_msgs], as [std_msgs/Header] is, and is never
    reported as an invalid message type. *)
Theorem unqualified_identifier (env : Collaborators) (id : string)
    (H : Str.find_first_of "/" id = None) :
  (id = "Header"
   /\ Loader.qualify id = ret ("std_msgs", "Header")
   /\ Loader.readDefinition env id
      = Loader.readDefinition env "std_msgs/Header"
   /\ forall (fuel : nat) (m m' : MessageType),
        Loader.load env fuel id m
        <> Throws (InvalidMessageTypeException id) m')
  \/ (id <> "Header"
      /\ forall (fuel : nat) (m : MessageType),
           Loader.load env (S fuel) id m
           = Throws (InvalidMessageTypeException id) (MessageType.clear m)).
Proof.
  destruct (decide (id = "Header")) as [-> | Hne]; [left | right].
  - repeat (split; [reflexivity |]). intros fuel m m' Hload.
    destruct (load_throws env fuel _ m m' _ Hload)
      as (done & t & _ & _ & _ & Ht & _).
    apply readDefinition_blames in Ht.
    pose proof (qualify_blames _ _ Ht) as <-. discriminate Ht.
  - split; [exact Hne |]. intros fuel m.
    apply load_root_throws, readDefinition_qualify_throws.
    rewrite qualify_unsplit by now apply splitType_no_separator.
    apply String.eqb_neq in Hne. now rewrite Hne.
Qed.

(** C10: an identifier that begins with the separator is not split, since
    the separator is at position zero; it is taken as a bare name, which is
    not [Header], and [load] throws the invalid message type exception. *)
Theorem leading_separator_is_invalid (env : Collaborators) (fuel : nat)
    (rest : string) (m : MessageType) :
  Loader.splitType (String "/" rest) = ("", String "/" rest)
  /\ Loader.load env (S fuel) (String "/" rest) m
     = Throws (InvalidMessageTypeException (String "/" rest))
         (MessageType.clear m).
Proof.
  split; [apply splitType_leading_separator |].
  apply load_root_throws, readDefinition_qualify_throws.
  now rewrite qualify_unsplit by apply splitType_leading_separator.
Qed.

(** The outcome of a [load] that has ended does not depend on the fuel. *)
Theorem load_more_fuel (env : Collaborators) (fuel fuel' : nat)
    (root : string) (m : MessageType) :
  fuel <= fuel' ->
  (forall m' : MessageType, Loader.load env fuel root m <> Unfinished m') ->
  Loader.load env fuel' root m = Loader.load env fuel root m.
Proof.
  intros Hle Hend. unfold Loader.load in *.
  rewrite (loop_more_fuel env fuel fuel' _ Hle); [reflexivity |].
  intros m' E. apply (Hend m'). now rewrite E.
Qed.

(** Enough fuel: when the identifiers that can be reached from the root lie
    in a finite set, [load] ends within as many iterations as the set has
    elements. *)
Theorem load_ends (env : Collaborators) (U : gset string) (fuel : nat)
    (root : string) (m : MessageType) :
  root ∈ U ->
  (forall t r : string, t ∈ U -> r ∈ Discovery.references env t -> r ∈ U) ->
  size U <= fuel ->
  forall m' : MessageType, Loader.load env fuel root m <> Unfinished m'.
Proof.
  intros Hroot Hclosed Hfuel m' Hload. unfold Loader.load in Hload.
  destruct (Loader.loop env fuel _) as [| | m0] eqn:E; try discriminate.
  revert E. apply (loop_ends env root U fuel _ [] Hclosed).
  - apply invariant_enter.
  - cbn [app Loader.enter requiredTypesInOrder]. intros t Ht.
    apply list_elem_of_singleton in Ht as ->. exact Hroot.
  - cbn [length]. lia.
Qed.

(** ** The sample installation *)

Example load_Segment :
  Loader.load Sample.env 3 "demo/Segment" MessageType.default
  = Returns
      (mkMessageType "demo/Segment" "*"
         (Sample.segmentText
          +:+ Discovery.separated ("std_msgs/Header", Sample.headerText)
          +:+ Discovery.separated ("geometry_msgs/Point", Sample.pointText))).
Proof. vm_compute. reflexivity. Qed.

Example rule_line :
  Loader.ruleLine = Str.newline +:+ Str.fill 80 "=" +:+ Str.newline
  /\ String.length (Str.fill 80 "=") = 80.
Proof. split; reflexivity. Qed.

(** C1, as stated, fails: the second type of [demo/Broken] lives in a
    package that is not installed; [load] throws, and the definition still
    holds the text of the root. *)
Lemma load_failure_keeps_partial_definition :
  Loader.load Sample.env 2 "demo/Broken" (mkMessageType "a/B" "*" "int8 c")
  = Throws (PackageNotFoundException "absent_msgs")
      (mkMessageType "" "*" Sample.brokenText)
  /\ Sample.brokenText <> "".
Proof. split; [vm_compute; reflexivity | discriminate]. Qed.

Lemma load_failure_state_witness :
  dataType (mkMessageType "" "*" Sample.brokenText) = ""
  /\ md5Sum (mkMessageType "" "*" Sample.brokenText) = "*"
  /\ exists (done : list string) (t : string),
       Discovery.inDiscoveryOrder Sample.env "demo/Broken" done
       /\ Forall (Discovery.read Sample.env) done
       /\ (done ++ [t])
            `prefix_of` Discovery.discovered Sample.env "demo/Broken" done
       /\ Loader.readDefinition Sample.env t
          = inl (PackageNotFoundException "absent_msgs")
       /\ definition (mkMessageType "" "*" Sample.brokenText)
          = Discovery.render (Discovery.blocks Sample.env done)
       /\ (t = "demo/Broken"
           -> definition (mkMessageType "" "*" Sample.brokenText) = "").
Proof.
  apply (load_failure_state Sample.env 2 "demo/Broken"
           (mkMessageType "a/B" "*" "int8 c")).
  vm_compute. reflexivity.
Defined.

(** C3, as stated, fails: [demo/Ping] has two members of type
    [std_msgs/Empty], whose text is empty; the type is loaded, and the
    definition holds no block for it. *)
Lemma empty_dependency_emits_no_block :
  Loader.load Sample.env 2 "demo/Ping" MessageType.default
  = Returns (mkMessageType "demo/Ping" "*" Sample.pingText)
  /\ Discovery.references Sample.env "demo/Ping"
     = ["std_msgs/Empty"; "std_msgs/Empty"]
  /\ Loader.readDefinition Sample.env "std_msgs/Empty" = inr ""
  /\ Str.occurrences (Loader.nameLine "std_msgs/Empty") Sample.pingText = 0.
Proof. repeat split; vm_compute; reflexivity. Qed.

Lemma load_once_in_discovery_order_witness :
  exists loaded : list string,
    NoDup loaded
    /\ Discovery.inDiscoveryOrder Sample.env "demo/Segment" loaded
    /\ loaded = Discovery.discovered Sample.env "demo/Segment" loaded
    /\ Forall (Discovery.read Sample.env) loaded
    /\ (forall t r : string,
          t ∈ loaded -> r ∈ Discovery.references Sample.env t -> r ∈ loaded)
    /\ Sample.segmentText
       +:+ Discovery.separated ("std_msgs/Header", Sample.headerText)
       +:+ Discovery.separated ("geometry_msgs/Point", Sample.pointText)
       = Discovery.render (Discovery.blocks Sample.env loaded)
    /\ NoDup (map fst (Discovery.blocks Sample.env loaded))
    /\ (forall t : string,
          t ∈ map fst (Discovery.blocks Sample.env loaded)
          <-> t ∈ loaded /\ Discovery.textOf Sample.env t <> "").
Proof.
  apply (load_once_in_discovery_order Sample.env 3 "demo/Segment"
           MessageType.default
           (mkMessageType "demo/Segment" "*"
              (Sample.segmentText
               +:+ Discovery.separated ("std_msgs/Header", Sample.headerText)
               +:+ Discovery.separated
                     ("geometry_msgs/Point", Sample.pointText)))).
  vm_compute. reflexivity.
Defined.

(** C4, as stated, fails: [std_msgs/Empty] is the third type loaded for
    [demo/Ack], and the definition ends with the block of the second one:
    no separator stands for the third. *)
Lemma empty_text_gets_no_separator :
  Loader.load Sample.env 3 "demo/Ack" MessageType.default
  = Returns
      (mkMessageType "demo/Ack" "*"
         (Sample.ackText
          +:+ Discovery.separated ("std_msgs/Header", Sample.headerText)))
  /\ Discovery.discovered Sample.env "demo/Ack"
       ["demo/Ack"; "std_msgs/Header"; "std_msgs/Empty"]
     = ["demo/Ack"; "std_msgs/Header"; "std_msgs/Empty"]
  /\ Loader.readDefinition Sample.env "std_msgs/Empty" = inr ""
  /\ Str.occurrences (Loader.nameLine "std_msgs/Empty")
       (Sample.ackText
        +:+ Discovery.separated ("std_msgs/Header", Sample.headerText))
     = 0.
Proof. repeat split; vm_compute; reflexivity. Qed.

Lemma separator_before_later_blocks_witness :
  exists rest : list string,
    NoDup ("demo/Ack" :: rest)
    /\ Discovery.inDiscoveryOrder Sample.env "demo/Ack" ("demo/Ack" :: rest)
    /\ "demo/Ack" :: rest
       = Discovery.discovered Sample.env "demo/Ack" ("demo/Ack" :: rest)
    /\ Sample.ackText
       +:+ Discovery.separated ("std_msgs/Header", Sample.headerText)
       = Discovery.textOf Sample.env "demo/Ack"
         +:+ Str.join
               (map Discovery.separated (Discovery.blocks Sample.env rest)).
Proof.
  apply (separator_before_later_blocks Sample.env 3 "demo/Ack"
           MessageType.default
           (mkMessageType "demo/Ack" "*"
              (Sample.ackText
               +:+ Discovery.separated
                     ("std_msgs/Header", Sample.headerText)))).
  vm_compute. reflexivity.
Defined.

Lemma unqualified_identifier_witness :
  Loader.load Sample.env 1 "Foo" MessageType.default
  = Throws (InvalidMessageTypeException "Foo")
      (MessageType.clear MessageType.default).
Proof.
  destruct (unqualified_identifier Sample.env "Foo" eq_refl)
    as [[H _] | [_ H]]; [discriminate H | apply H].
Defined.

(** C6, as stated, fails: the file of [std_msgs/Empty] is empty; [load]
    returns and the data type is left empty. *)
Lemma empty_root_has_no_data_type :
  Loader.readDefinition Sample.env "std_msgs/Empty" = inr ""
  /\ Discovery.compoundMembers Sample.env "" = []
  /\ Loader.load Sample.env 1 "std_msgs/Empty" MessageType.default
     = Returns (mkMessageType "" "*" "")
  /\ dataType (mkMessageType "" "*" "") <> "std_msgs/Empty".
Proof.
  split; [vm_compute; reflexivity |]. split; [reflexivity |].
  split; [vm_compute; reflexivity | discriminate].
Qed.

Lemma load_without_compound_members_witness :
  Loader.load Sample.env 1 "geometry_msgs/Point" MessageType.default
  = Returns (mkMessageType "geometry_msgs/Point" "*" Sample.pointText).
Proof.
  apply (load_without_compound_members Sample.env 0 "geometry_msgs/Point"
           MessageType.default Sample.pointText);
    vm_compute; reflexivity.
Defined.

Example sample_load_ends (root : string) (m m' : MessageType) :
  root ∈ ["demo/Segment"; "std_msgs/Header"; "geometry_msgs/Point"] ->
  Loader.load Sample.env 3 root m <> Unfinished m'.
Proof.
  intros Hroot.
  apply (load_ends Sample.env
           (list_to_set
              ["demo/Segment"; "std_msgs/Header"; "geometry_msgs/Point"])).
  - now apply elem_of_list_to_set.
  - intros t r Ht Hr. apply elem_of_list_to_set in Ht.
    apply elem_of_list_to_set.
    repeat (apply elem_of_cons in Ht as [-> | Ht];
            [vm_compute in Hr;
             repeat (apply elem_of_cons in Hr as [-> | Hr];
                     [repeat constructor |]);
             now apply elem_of_nil in Hr |]).
    now apply elem_of_nil in Ht.
  - vm_compute. lia.
Qed.

(** * Further properties *)

(** ** Cutting an identifier at its first separator *)

Lemma length_append (s t : string) :
  String.length (s +:+ t) = String.length s + String.length t.
Proof.
  induction s as [|c s IH]; [reflexivity |].
  rewrite append_cons. cbn [String.length]. now rewrite IH.
Qed.

Lemma append_inj_r (s s' u : string) : s +:+ u = s' +:+ u -> s = s'.
Proof.
  revert s'. induction s as [|c s IH]; intros [|c' s'] H.
  - reflexivity.
  - change ("" +:+ u) with u in H. apply (f_equal String.length) in H.
    rewrite append_cons in H. cbn [String.length] in H.
    rewrite length_append in H. lia.
  - change ("" +:+ u) with u in H. apply (f_equal String.length) in H.
    rewrite append_cons in H. cbn [String.length] in H.
    rewrite length_append in H. lia.
  - rewrite !append_cons in H. injection H as -> H. f_equal. now apply IH.
Qed.

Lemma substring_prefix (p q : string) :
  String.substring 0 (String.length p) (p +:+ q) = p.
Proof.
  induction p as [|c p IH]; [now destruct q |].
  rewrite append_cons. cbn [String.length String.substring]. now rewrite IH.
Qed.

Lemma substring_whole (q : string) :
  String.substring 0 (String.length q) q = q.
Proof.
  induction q as [|c q IH]; [reflexivity |].
  cbn [String.length String.substring]. now rewrite IH.
Qed.

Lemma substring_suffix (p q : string) (c : ascii) :
  Str.substr_from (String.length p + 1) (p +:+ String c q) = q.
Proof.
  unfold Str.substr_from. rewrite length_append. cbn [String.length].
  replace (String.length p + S (String.length q) - (String.length p + 1))
    with (String.length q) by lia.
  induction p as [|d p IH].
  - cbn [String.length Nat.add String.substring].
    change ("" +:+ String c q) with (String c q).
    cbn [String.substring]. apply substring_whole.
  - rewrite append_cons. cbn [String.length Nat.add String.substring].
    exact IH.
Qed.


Lemma find_first_of_append (c : ascii) (p q : string) :
  Str.find_first_of c p = None ->
  Str.find_first_of c (p +:+ String c q) = Some (String.length p).
Proof.
  induction p as [|d p IH]; intros H.
  - change ("" +:+ String c q) with (String c q). apply find_first_of_head.
  - rewrite append_cons. cbn [Str.find_first_of String.length] in H |- *.
    destruct (Ascii.eqb d c); [discriminate |].
    destruct (Str.find_first_of c p); [discriminate |]. now rewrite IH.
Qed.

Lemma splitType_qualified (p q : string) :
  p <> "" -> Str.find_first_of "/" p = None ->
  Loader.splitType (p +:+ String "/" q) = (p, q).
Proof.
  intros Hp Hn. unfold Loader.splitType.
  rewrite (find_first_of_append _ p q Hn).
  destruct p as [|d p]; [easy |]. cbn [String.length Nat.ltb Nat.leb].
  unfold Str.substr.
  rewrite <- (substring_suffix (String d p) q "/") at 3.
  rewrite <- (substring_prefix (String d p) (String "/" q)) at 3.
  reflexivity.
Qed.


Lemma qualify_split (t p q : string) :
  Loader.splitType t = (p, q) -> p <> "" ->
  Loader.qualify t
  = if Str.empty q then throw InvalidDataTypeException else ret (p, q).
Proof.
  intros H Hp. unfold Loader.qualify. rewrite H.
  destruct p as [|c p]; [easy |]. reflexivity.
Qed.


(** X1: an identifier [package/type], with both parts non-empty, is loaded
    from the file [<path of the package>/msg/<type>.msg]: a package without
    path throws the package exception, a file that cannot be opened throws
    the file exception that names it, and otherwise the content of the
    file is the loaded text. *)
Theorem readDefinition_qualified (env : Collaborators) (p q : string)
    (Hp : p <> "") (Hs : Str.find_first_of "/" p = None) (Hq : q <> "") :
  Loader.readDefinition env (p +:+ "/" +:+ q)
  = if Str.empty (getPath env p) then throw (PackageNotFoundException p)
    else match readFile env (getPath env p +:+ "/msg/" +:+ q +:+ ".msg") with
         | Some messageDefinition => ret messageDefinition
         | None =>
             throw (FileOpenException
                      (getPath env p +:+ "/msg/" +:+ q +:+ ".msg"))
         end.
Proof.
  unfold Loader.readDefinition.
  change ("/" +:+ q) with (String "/" q).
  rewrite (qualify_split _ p q (splitType_qualified p q Hp Hs) Hp).
  apply empty_false in Hq. rewrite Hq. reflexivity.
Qed.

Lemma readDefinition_qualified_witness :
  Loader.readDefinition Sample.env ("geometry_msgs" +:+ "/" +:+ "Point")
  = ret Sample.pointText.
Proof.
  rewrite (readDefinition_qualified Sample.env "geometry_msgs" "Point");
    [vm_compute; reflexivity | discriminate | reflexivity | discriminate].
Defined.

(** X2: a package name followed by the separator and nothing else makes
    [load] throw the invalid data type exception at once, whether the
    package exists or not, and leaves the object cleared. *)
Theorem load_empty_type (env : Collaborators) (fuel : nat) (p : string)
    (m : MessageType)
    (Hp : p <> "") (Hs : Str.find_first_of "/" p = None) :
  Loader.load env (S fuel) (p +:+ "/") m
  = Throws InvalidDataTypeException (MessageType.clear m).
Proof.
  apply load_root_throws, readDefinition_qualify_throws.
  change "/" with (String "/" "").
  now rewrite (qualify_split _ p "" (splitType_qualified p "" Hp Hs) Hp).
Qed.

Lemma load_empty_type_witness :
  Loader.load Sample.env 1 ("absent_msgs" +:+ "/") MessageType.default
  = Throws InvalidDataTypeException (MessageType.clear MessageType.default).
Proof.
  apply (load_empty_type Sample.env 0 "absent_msgs");
    [discriminate | reflexivity].
Defined.

(** ** What is loaded, and from where *)


Lemma discovered_elem (env : Collaborators) (root : string)
    (loaded : list string) (t : string) :
  t ∈ Discovery.discovered env root loaded <->
  t = root \/ exists u, u ∈ loaded /\ t ∈ Discovery.references env u.
Proof.
  unfold Discovery.discovered.
  rewrite collect_elem, elem_of_nil, elem_of_cons, list_elem_of_In,
    in_flat_map.
  setoid_rewrite list_elem_of_In. tauto.
Qed.




(** ** When [load] returns *)

Lemma discovered_within (env : Collaborators) (U : gset string)
    (root : string) (loaded : list string) :
  root ∈ U ->
  (forall t r : string, t ∈ U -> r ∈ Discovery.references env t -> r ∈ U) ->
  (forall t : string, t ∈ loaded -> t ∈ U) ->
  forall t : string, t ∈ Discovery.discovered env root loaded -> t ∈ U.
Proof.
  intros Hroot Hclosed Hl t Ht. apply discovered_elem in Ht.
  destruct Ht as [-> | (u & Hu & Ht)]; [exact Hroot |].
  apply (Hclosed u); [now apply Hl | exact Ht].
Qed.

Lemma inDiscoveryOrder_within (env : Collaborators) (U : gset string)
    (root : string) (loaded : list string) :
  root ∈ U ->
  (forall t r : string, t ∈ U -> r ∈ Discovery.references env t -> r ∈ U) ->
  Discovery.inDiscoveryOrder env root loaded ->
  forall t : string, t ∈ loaded -> t ∈ U.
Proof.
  intros Hroot Hclosed.
  induction loaded as [|x loaded IH] using rev_ind; intros Ho t Ht;
    [now apply elem_of_nil in Ht |].
  assert (Ho' : Discovery.inDiscoveryOrder env root loaded).
  { intros before u after E. apply (Ho before u (after ++ [x])).
    rewrite E, <- app_assoc. reflexivity. }
  apply elem_of_app in Ht as [Ht | Ht]; [now apply IH |].
  apply list_elem_of_singleton in Ht as ->.
  destruct (Ho loaded x [] eq_refl) as [k Hk].
  apply (discovered_within env U root loaded Hroot Hclosed (IH Ho')).
  rewrite Hk, <- app_assoc. apply elem_of_app. right. apply list_elem_of_here.
Qed.

(** X4: when the identifiers that can be reached from the root lie in a
    finite set and each of them can be loaded, [load] returns normally
    within as many iterations as the set has elements, cycles among the
    references included. *)
Theorem load_succeeds (env : Collaborators) (U : gset string) (fuel : nat)
    (root : string) (m : MessageType)
    (Hroot : root ∈ U)
    (Hclosed : forall t r : string,
       t ∈ U -> r ∈ Discovery.references env t -> r ∈ U)
    (Hread : forall t : string, t ∈ U -> Discovery.read env t)
    (Hfuel : size U <= fuel) :
  exists m' : MessageType, Loader.load env fuel root m = Returns m'.
Proof.
  destruct (Loader.load env fuel root m) as [m' | e m' | m'] eqn:E.
  - now exists m'.
  - exfalso.
    destruct (load_throws env fuel root m m' e E)
      as (done & t & Ho & _ & [k Hk] & Ht & _).
    assert (HtU : t ∈ U).
    { apply (discovered_within env U root done Hroot Hclosed
               (inDiscoveryOrder_within env U root done Hroot Hclosed Ho)).
      rewrite Hk, <- app_assoc. apply elem_of_app. right.
      apply list_elem_of_here. }
    specialize (Hread t HtU). unfold Discovery.read in Hread. congruence.
  - exfalso. now apply (load_ends env U fuel root m Hroot Hclosed Hfuel m').
Qed.

Lemma load_succeeds_witness :
  exists m' : MessageType,
    Loader.load Sample.env 3 "demo/Segment" MessageType.default = Returns m'.
Proof.
  apply (load_succeeds Sample.env
           (list_to_set
              ["demo/Segment"; "std_msgs/Header"; "geometry_msgs/Point"])).
  - now apply elem_of_list_to_set; apply list_elem_of_here.
  - intros t r Ht Hr. apply elem_of_list_to_set in Ht.
    apply elem_of_list_to_set.
    repeat (apply elem_of_cons in Ht as [-> | Ht];
            [vm_compute in Hr;
             repeat (apply elem_of_cons in Hr as [-> | Hr];
                     [repeat constructor |]);
             now apply elem_of_nil in Hr |]).
    now apply elem_of_nil in Ht.
  - intros t Ht. apply elem_of_list_to_set in Ht.
    repeat (apply elem_of_cons in Ht as [-> | Ht];
            [vm_compute; reflexivity |]).
    now apply elem_of_nil in Ht.
  - vm_compute. lia.
Defined.

(** X5: [load] forgets what the object held: its outcome is the same
    whatever the data type, the signature and the definition were before
    the call. *)
Theorem load_forgets (env : Collaborators) (fuel : nat) (root : string)
    (m1 m2 : MessageType) :
  Loader.load env fuel root m1 = Loader.load env fuel root m2.
Proof. reflexivity. Qed.

Lemma render_root (env : Collaborators) (root : string)
    (rest : list string) :
  Discovery.inDiscoveryOrder env root (root :: rest) ->
  Discovery.render (Discovery.blocks env (root :: rest))
  = Discovery.textOf env root
    +:+ Str.join (map Discovery.separated (Discovery.blocks env rest)).
Proof.
  intros Ho. rewrite blocks_cons.
  destruct (Str.empty (Discovery.textOf env root)) eqn:E; [| reflexivity].
  apply empty_true in E.
  rewrite (loaded_alone env root rest Ho).
  - now rewrite E.
  - unfold Discovery.references. now rewrite E.
Qed.

Lemma read_not_empty (env : Collaborators) (t : string) :
  Discovery.read env t -> t <> "".
Proof.
  intros Hr ->. unfold Discovery.read in Hr.
  now rewrite (readDefinition_qualify_throws env ""
                 (InvalidMessageTypeException "") eq_refl) in Hr.
Qed.

(** The object a successful [load] leaves. *)
Lemma load_returns_object (env : Collaborators) (fuel : nat) (root : string)
    (m m' : MessageType) :
  Loader.load env fuel root m = Returns m' ->
  root <> ""
  /\ md5Sum m' = "*"
  /\ dataType m' = (if Str.empty (Discovery.textOf env root) then ""
                    else root)
  /\ Str.empty (definition m') = Str.empty (Discovery.textOf env root).
Proof.
  intros H. destruct (load_returns env fuel root m m' H)
    as (loaded & Ho & Hr & Hd & ->).
  destruct (loaded_root_first env root loaded Hd) as (rest & -> & _).
  apply Forall_cons in Hr as [Hroot _].
  split; [now apply (read_not_empty env) |].
  rewrite (render_root env root rest Ho). unfold Loader.leave.
  cbn [definition]. rewrite empty_append.
  destruct (Str.empty (Discovery.textOf env root)) eqn:E; cbn [negb andb].
  - rewrite (loaded_alone env root rest Ho).
    + change (Discovery.blocks env []) with (@nil (string * string)).
      cbn [map Str.join foldr Str.empty negb dataType md5Sum definition].
      now rewrite empty_append, E.
    + apply empty_true in E. unfold Discovery.references. now rewrite E.
  - cbn [MessageType.setDataType dataType md5Sum definition].
    now rewrite empty_append, E.
Qed.

(** X6: after a successful [load] the object is valid exactly when the file
    of the root is not empty; its data type is then the root identifier. *)
Theorem load_valid_iff (env : Collaborators) (fuel : nat) (root : string)
    (m m' : MessageType) (H : Loader.load env fuel root m = Returns m') :
  MessageType.isValid m' = negb (Str.empty (Discovery.textOf env root))
  /\ dataType m'
     = (if Str.empty (Discovery.textOf env root) then "" else root).
Proof.
  destruct (load_returns_object env fuel root m m' H)
    as (Hroot & Hmd5 & Hdata & Hdef).
  split; [| exact Hdata].
  unfold MessageType.isValid. rewrite Hmd5, Hdata, Hdef.
  apply empty_false in Hroot.
  destruct (Str.empty (Discovery.textOf env root)); [reflexivity |].
  now rewrite Hroot.
Qed.

Lemma load_valid_iff_witness :
  MessageType.isValid (mkMessageType "Header" "*" Sample.headerText)
  = negb (Str.empty (Discovery.textOf Sample.env "Header"))
  /\ dataType (mkMessageType "Header" "*" Sample.headerText)
     = (if Str.empty (Discovery.textOf Sample.env "Header") then ""
        else "Header").
Proof.
  apply (load_valid_iff Sample.env 1 "Header" MessageType.default).
  vm_compute. reflexivity.
Defined.

(** X7: after a [load] that throws the object is not valid, so that
    [advertise] returns an unbound publisher, while [subscribe] still binds
    its subscriber. *)
Theorem load_throws_unbound (env : Collaborators) (fuel : nat)
    (root : string) (m m' : MessageType) (e : Exception)
    (T : Transport) (nodeHandle : NodeHandle T) (topic : string)
    (queueSize : nat) (latch : bool)
    (connectCallback : SubscriberStatusCallback T)
    (callback : SubscriberCallback T)
    (H : Loader.load env fuel root m = Throws e m') :
  MessageType.isValid m' = false
  /\ publisherImpl
       (Binding.advertise m' nodeHandle topic queueSize latch connectCallback)
     = None
  /\ Binding.boundSubscriber
       (Binding.subscribe m' nodeHandle topic queueSize callback) = true.
Proof.
  destruct (load_throws env fuel root m m' e H)
    as (done & t & _ & _ & _ & _ & ->).
  split; [reflexivity |]. split; reflexivity.
Qed.

Lemma load_throws_unbound_witness :
  MessageType.isValid (mkMessageType "" "*" Sample.brokenText) = false
  /\ publisherImpl
       (Binding.advertise (T := Sample.transport)
          (mkMessageType "" "*" Sample.brokenText) tt "/chatter" 10 false tt)
     = None
  /\ Binding.boundSubscriber
       (Binding.subscribe (T := Sample.transport)
          (mkMessageType "" "*" Sample.brokenText) tt "/chatter" 10 tt)
     = true.
Proof.
  apply (load_throws_unbound Sample.env 2 "demo/Broken" MessageType.default
           _ (PackageNotFoundException "absent_msgs") Sample.transport).
  vm_compute. reflexivity.
Defined.

Lemma collect_known (seen xs : list string) :
  (forall x : string, x ∈ xs -> x ∈ seen) -> Discovery.collect seen xs = seen.
Proof.
  induction xs as [|x xs IH]; intros H; [reflexivity |].
  rewrite collect_cons, bool_decide_true by apply H, list_elem_of_here.
  apply IH. intros y Hy. apply H. now apply list_elem_of_further.
Qed.

(** X8: a root whose compound members can all be loaded, and reference
    nothing but each other and the root, is resolved in one level: the
    definition is the text of the root followed by the separated blocks of
    its compound members, each once, in the order in which the text of the
    root first names them. *)
Theorem load_one_level (env : Collaborators) (root : string)
    (m : MessageType) (text : string)
    (Hread : Loader.readDefinition env root = inr text)
    (Hmembers : forall t : string,
       t ∈ Discovery.compoundMembers env text ->
       Discovery.read env t
       /\ forall r : string,
            r ∈ Discovery.references env t ->
            r = root \/ r ∈ Discovery.compoundMembers env text) :
  Loader.load env
    (length (Discovery.collect [root] (Discovery.compoundMembers env text)))
    root m
  = Returns
      (mkMessageType (if Str.empty text then "" else root) "*"
         (text
          +:+ Str.join
                (map Discovery.separated
                   (Discovery.blocks env
                      (tail (Discovery.collect [root]
                               (Discovery.compoundMembers env text))))))).
Proof.
  destruct (read_text env root text Hread) as [Htext Hroot].
  assert (Hrefs : Discovery.references env root
                  = Discovery.compoundMembers env text).
  { unfold Discovery.references. now rewrite Htext. }
  set (l := Discovery.compoundMembers env text) in *.
  set (U := list_to_set (root :: l) : gset string).
  assert (HU : forall t : string, t ∈ U <-> t = root \/ t ∈ l).
  { intros t. unfold U. now rewrite elem_of_list_to_set, elem_of_cons. }
  assert (Hclosed : forall t r : string,
            t ∈ U -> r ∈ Discovery.references env t -> r ∈ U).
  { intros t r Ht Hr. apply HU. apply HU in Ht as [-> | Ht].
    - right. now rewrite <- Hrefs.
    - now apply (Hmembers t Ht). }
  assert (HrootU : root ∈ U) by (apply HU; now left).
  assert (Hsize : size U = length (Discovery.collect [root] l)).
  { rewrite <- (size_list_to_set (C := gset string))
      by apply collect_NoDup, NoDup_singleton.
    f_equal. apply set_eq. intros t.
    rewrite HU, elem_of_list_to_set, collect_elem, list_elem_of_singleton.
    tauto. }
  destruct (load_succeeds env U (length (Discovery.collect [root] l)) root m)
    as [m' Hload]; [exact HrootU | exact Hclosed | | lia |].
  { intros t Ht. apply HU in Ht as [-> | Ht]; [exact Hroot |].
    now apply (Hmembers t Ht). }
  rewrite Hload. f_equal.
  destruct (load_returns env _ root m m' Hload)
    as (loaded & Ho & _ & Hd & ->).
  destruct (loaded_root_first env root loaded Hd) as (rest & -> & _).
  assert (Hrest : root :: rest = Discovery.collect [root] l).
  { rewrite Hd at 1. unfold Discovery.discovered.
    rewrite collect_cons, bool_decide_false by apply not_elem_of_nil.
    cbn [app flat_map]. rewrite collect_app, Hrefs.
    apply collect_known. intros x Hx.
    apply list_elem_of_In, in_flat_map in Hx as (u & Hu & Hx).
    apply list_elem_of_In in Hu, Hx.
    apply collect_elem. rewrite list_elem_of_singleton. apply HU.
    apply (Hclosed u); [| exact Hx].
    apply (inDiscoveryOrder_within env U root (root :: rest)
             HrootU Hclosed Ho).
    now apply list_elem_of_further. }
  rewrite (render_root env root rest Ho), Htext, <- Hrest. cbn [tail].
  unfold Loader.leave. cbn [definition]. rewrite empty_append.
  destruct (Str.empty text) eqn:E; cbn [andb negb]; [| reflexivity].
  assert (Hnil : rest = []).
  { apply (loaded_alone env root rest Ho). apply empty_true in E.
    unfold Discovery.references. now rewrite Htext, E. }
  subst rest. reflexivity.
Qed.

Lemma load_one_level_witness :
  Loader.load Sample.env 3 "demo/Segment" MessageType.default
  = Returns
      (mkMessageType "demo/Segment" "*"
         (Sample.segmentText
          +:+ Discovery.separated ("std_msgs/Header", Sample.headerText)
          +:+ Discovery.separated ("geometry_msgs/Point", Sample.pointText))).
Proof.
  apply (load_one_level Sample.env "demo/Segment" MessageType.default
           Sample.segmentText).
  - vm_compute. reflexivity.
  - intros t Ht. vm_compute in Ht.
    repeat (apply elem_of_cons in Ht as [-> | Ht];
            [split; [vm_compute; reflexivity |];
             intros r Hr; vm_compute in Hr; now apply elem_of_nil in Hr |]).
    now apply elem_of_nil in Ht.
Defined.

(** ** Equality and validity *)

(** X9: [operator==] is an equivalence on message types. *)
Theorem op_eq_equivalence :
  Equivalence (fun a b : MessageType => MessageType.op_eq a b = true).
Proof.
  split.
  - intros a. unfold MessageType.op_eq. now rewrite !String.eqb_refl.
  - intros a b. unfold MessageType.op_eq.
    now rewrite (String.eqb_sym (dataType a)), (String.eqb_sym (md5Sum a)).
  - intros a b c. unfold MessageType.op_eq.
    rewrite !andb_true_iff, !String.eqb_eq. intros [-> ->] [-> ->]. easy.
Qed.

(** X10: two message types that compare equal are both valid or both
    invalid as soon as their definitions are both empty or both not;
    equality alone does not transfer validity, since it does not look at
    the definition. *)
Theorem equal_objects_validity (a b : MessageType)
    (Heq : MessageType.op_eq a b = true)
    (Hdef : Str.empty (definition a) = Str.empty (definition b)) :
  MessageType.isValid a = MessageType.isValid b.
Proof.
  unfold MessageType.op_eq in Heq. apply andb_true_iff in Heq as [Hd Hs].
  apply String.eqb_eq in Hd, Hs. unfold MessageType.isValid.
  now rewrite Hd, Hs, Hdef.
Qed.

Lemma equal_objects_validity_witness :
  MessageType.isValid (mkMessageType "pkg/Type" "*" "int32 a")
  = MessageType.isValid (mkMessageType "pkg/Type" "*" "string b").
Proof. apply equal_objects_validity; reflexivity. Defined.

Example equal_but_not_both_valid :
  MessageType.op_eq (mkMessageType "pkg/Type" "*" "int32 a")
                    (mkMessageType "pkg/Type" "*" "") = true
  /\ MessageType.isValid (mkMessageType "pkg/Type" "*" "int32 a") = true
  /\ MessageType.isValid (mkMessageType "pkg/Type" "*" "") = false.
Proof. repeat split. Qed.

(** ** The texts of the exceptions *)

Lemma lexical_cast_inj (i j : N) :
  Exceptions.lexical_cast i = Exceptions.lexical_cast j -> i = j.
Proof.
  unfold Exceptions.lexical_cast. intros H.
  apply (f_equal NilEmpty.uint_of_string) in H.
  rewrite !NilEmpty.usu in H. injection H as H.
  apply (f_equal N.of_uint) in H. now rewrite !DecimalN.Unsigned.of_to in H.
Qed.

Lemma bracketed_inj (before after x y : string) :
  before +:+ x +:+ after = before +:+ y +:+ after -> x = y.
Proof. intros H. apply String.app_inj in H. now apply append_inj_r in H. Qed.

Lemma what_ofLoader (e : Exception) :
  Exceptions.what (Exceptions.ofLoader e) = what e.
Proof. now destruct e. Qed.

(** X11: the text of an exception tells its class, and, for every class
    but the three whose text is made of several values (the two mismatch
    exceptions and the parse exception), the value it was built from. *)
Theorem what_determines_exception (a b : Exceptions.t)
    (H : Exceptions.what a = Exceptions.what b) :
  a = b
  \/ (Exceptions.classOf a = Exceptions.classOf b
      /\ (Exceptions.classOf a = Exceptions.DataTypeMismatchException
          \/ Exceptions.classOf a = Exceptions.MD5SumMismatchException
          \/ Exceptions.classOf a = Exceptions.DefinitionParseException)).
Proof.
  destruct a, b; try discriminate H;
    try (left; reflexivity);
    try (left; f_equal; now apply bracketed_inj in H);
    try (left; f_equal; apply bracketed_inj in H; now apply lexical_cast_inj);
    right; split; auto.
Qed.

Lemma what_determines_exception_witness :
  Exceptions.PackageNotFound "absent_msgs"
  = Exceptions.ofLoader (PackageNotFoundException "absent_msgs")
  \/ (Exceptions.classOf (Exceptions.PackageNotFound "absent_msgs")
      = Exceptions.classOf
          (Exceptions.ofLoader (PackageNotFoundException "absent_msgs"))
      /\ (Exceptions.classOf (Exceptions.PackageNotFound "absent_msgs")
          = Exceptions.DataTypeMismatchException
          \/ Exceptions.classOf (Exceptions.PackageNotFound "absent_msgs")
             = Exceptions.MD5SumMismatchException
          \/ Exceptions.classOf (Exceptions.PackageNotFound "absent_msgs")
             = Exceptions.DefinitionParseException)).
Proof. apply what_determines_exception. reflexivity. Defined.

(** The text of a mismatch exception does not tell its two values apart. *)
Example mismatch_text_ambiguous :
  Exceptions.what
    (Exceptions.DataTypeMismatch "b" "a] mismatches expected data type [a")
  = Exceptions.what
      (Exceptions.DataTypeMismatch "a] mismatches expected data type [b" "a").
Proof. reflexivity. Qed.

(** ** The lines handed to the parser *)

Lemma getlines_nil (s : string) : Str.getlines s = [] -> s = "".
Proof.
  destruct s as [|c s]; [reflexivity |]. cbn [Str.getlines].
  destruct (Ascii.eqb c Str.LF); [discriminate |].
  destruct (Str.getlines s); discriminate.
Qed.

(** X12: the [getline] loop hands every line of the text to the parser,
    in order and without its line feed: no line holds a line feed, and the
    lines, each closed by a line feed, give the text back, up to the line
    feed that the last line may lack. *)
Theorem getlines_rebuild (s : string) :
  (forall l : string, l ∈ Str.getlines s -> Str.find_first_of Str.LF l = None)
  /\ exists last : string,
       (last = "" \/ last = Str.newline)
       /\ Str.join (map (fun l => l +:+ Str.newline) (Str.getlines s))
          = s +:+ last.
Proof.
  induction s as [|c s [IHl (last & Hlast & IHj)]].
  - split; [intros l Hl; now apply elem_of_nil in Hl |].
    exists "". split; [now left | reflexivity].
  - cbn [Str.getlines]. destruct (Ascii.eqb c Str.LF) eqn:E.
    + apply Ascii.eqb_eq in E. subst c. split.
      * intros l Hl. apply elem_of_cons in Hl as [-> | Hl];
          [reflexivity | now apply IHl].
      * exists last. split; [exact Hlast |].
        cbn [map Str.join foldr]. fold (Str.join
          (map (fun l => l +:+ Str.newline) (Str.getlines s))).
        rewrite IHj. reflexivity.
    + destruct (Str.getlines s) as [|l ls] eqn:Hg.
      * apply getlines_nil in Hg. subst s. split.
        -- intros l Hl. apply list_elem_of_singleton in Hl as ->.
           cbn [Str.find_first_of]. now rewrite E.
        -- exists Str.newline. split; [now right | reflexivity].
      * split.
        -- intros l' Hl. apply elem_of_cons in Hl as [-> | Hl].
           ++ cbn [Str.find_first_of]. rewrite E.
              now rewrite (IHl l (list_elem_of_here _ _)).
           ++ apply IHl. now apply list_elem_of_further.
        -- exists last. split; [exact Hlast |].
           cbn [map Str.join foldr] in IHj |- *.
           rewrite !append_cons. now rewrite IHj.
Qed.
